(** * petl.transform.regex: capture, split and search stages

    A shallow embedding of [src/petl/transform/regex.py] and
    [src/petl/errors.py].  Python objects are restricted to the values that
    table cells, headers and field selectors hold in this module: [None],
    integers, strings, and lists or tuples of those.  A generator is the
    finite sequence of its yields closed by the way it ends (exhausted, or an
    exception raised).  The regular expression library is a parameter of the
    stages ([ReEngine]); [PyRe] gives one instance of it for a fragment of the
    pattern syntax, used where a statement names a concrete pattern.  [sub]
    only hands a substitution to [convert] of petl.transform.conversions,
    which is outside these sources, and is left out.  [Store], at the end,
    gives the three generators once more over a store of mutable objects, to
    tell what a traversal changes and what it leaves alone. *)

From Stdlib Require Import ZArith List String Ascii Bool Lia DecimalString.
From Stdlib Require Import Permutation.
Import ListNotations.
Local Open Scope string_scope.
Local Open Scope list_scope.
Local Open Scope Z_scope.

(** ** Python values *)

Inductive value : Type :=
| VNone
| VInt (z : Z)
| VStr (s : string).

Definition value_eqb (a b : value) : bool :=
  match a, b with
  | VNone, VNone => true
  | VInt x, VInt y => Z.eqb x y
  | VStr x, VStr y => String.eqb x y
  | _, _ => false
  end.

(** [str(v)] *)
Definition str (v : value) : string :=
  match v with
  | VNone => "None"
  | VInt z => NilZero.string_of_int (Z.to_int z)
  | VStr s => s
  end.

(** Lists and tuples: the same elements, told apart by their kind. *)
Inductive seqkind : Type := KList | KTuple.

Record pyseq : Type := PySeq { kind : seqkind; elems : list value }.

Definition pylist (l : list value) : pyseq := PySeq KList l.
Definition tuple (l : list value) : pyseq := PySeq KTuple l.

Definition is_tuple (q : pyseq) : bool :=
  match kind q with KTuple => true | KList => false end.

(** An argument that may be a scalar or a collection (a field selector). *)
Inductive pyobj : Type :=
| OVal (v : value)
| OSeq (q : pyseq).

(** ** Exceptions (src/petl/errors.py and the built-in ones the module meets) *)

(** The arguments of a [%]-formatted message: literal text and [%r] slots. *)
Inductive msg_part : Type :=
| Lit (s : string)
| Repr (o : pyobj).

Inductive exn : Type :=
| StopIteration
| Exception_ (msg : string)
| ValueError
| TypeError
| IndexError
| ReError
| TransformError (msg : list msg_part)
| DuplicateKeyError (key : pyobj)
| FieldSelectionError (value : pyobj).

Inductive result (A : Type) : Type :=
| Ok (a : A)
| Raise (e : exn).
Arguments Ok {A} a.
Arguments Raise {A} e.

Definition bind {A B : Type} (r : result A) (f : A -> result B) : result B :=
  match r with
  | Ok a => f a
  | Raise e => Raise e
  end.

Notation "x <- r ;; k" := (bind r (fun x => k))
  (at level 61, r at next level, right associativity).

Fixpoint mapM {A B : Type} (f : A -> result B) (l : list A) : result (list B) :=
  match l with
  | [] => Ok []
  | a :: l' => b <- f a ;; bs <- mapM f l' ;; Ok (b :: bs)
  end.

(** ** Sequence primitives *)

Definition len (l : list value) : Z := Z.of_nat (List.length l).

(** [x in l] *)
Definition py_in (x : pyobj) (l : list value) : bool :=
  match x with
  | OVal v => existsb (value_eqb v) l
  | OSeq _ => false
  end.

(** [l.index(v)], counting from [i]; [None] stands for ValueError. *)
Fixpoint index_from (i : Z) (v : value) (l : list value) : option Z :=
  match l with
  | [] => None
  | x :: l' => if value_eqb x v then Some i else index_from (i + 1) v l'
  end.

Definition index (l : list value) (x : pyobj) : result Z :=
  match x with
  | OVal v => match index_from 0 v l with Some i => Ok i | None => Raise ValueError end
  | OSeq _ => Raise ValueError
  end.

(** [l.remove(x)]: drops the first element equal to [x]. *)
Fixpoint remove_first (v : value) (l : list value) : option (list value) :=
  match l with
  | [] => None
  | x :: l' =>
      if value_eqb x v then Some l'
      else match remove_first v l' with
           | Some r => Some (x :: r)
           | None => None
           end
  end.

Definition remove (l : list value) (x : pyobj) : result (list value) :=
  match x with
  | OVal v => match remove_first v l with Some r => Ok r | None => Raise ValueError end
  | OSeq _ => Raise ValueError
  end.

(** [l[i]], negative indices counting from the end. *)
Definition getitem (l : list value) (i : Z) : result value :=
  let n := len l in
  let j := if i <? 0 then i + n else i in
  if (0 <=? j) && (j <? n) then
    match nth_error l (Z.to_nat j) with
    | Some v => Ok v
    | None => Raise IndexError
    end
  else Raise IndexError.

(** [[v for i, v in enumerate(row) if i != k]] *)
Fixpoint drop_index_from (i : Z) (k : Z) (l : list value) : list value :=
  match l with
  | [] => []
  | v :: l' =>
      if Z.eqb i k then drop_index_from (i + 1) k l'
      else v :: drop_index_from (i + 1) k l'
  end.

Definition drop_index (k : Z) (l : list value) : list value :=
  drop_index_from 0 k l.

(** ** Generators *)

Inductive outcome : Type :=
| Done
| Raised (e : exn).

(** What a traversal does: yield an element and go on, return, or raise. *)
Inductive traversal : Type :=
| Yield (x : pyseq) (k : traversal)
| Return
| Throw (e : exn).

Fixpoint yielded (t : traversal) : list pyseq :=
  match t with
  | Yield x k => x :: yielded k
  | Return => []
  | Throw _ => []
  end.

Fixpoint final (t : traversal) : outcome :=
  match t with
  | Yield _ k => final k
  | Return => Done
  | Throw e => Raised e
  end.

(** Iterating a list of rows held in memory. *)
Fixpoint of_rows (rows : list pyseq) : traversal :=
  match rows with
  | [] => Return
  | r :: rows' => Yield r (of_rows rows')
  end.

(** The data rows of a traversal: everything after its first element. *)
Definition data_rows (t : traversal) : list pyseq := tl (yielded t).

(** ** The regular expression library

    [re.compile(pattern, flags)] gives a compiled program or raises
    [re.error]; [prog.search(s)] gives [None] or a match, of which the stages
    read [match.groups()] only; [prog.split(s, maxsplit)] gives the pieces.
    Groups that took no part in a match are [None]. *)

Record ReEngine : Type := {
  prog : Type;
  re_compile : string -> Z -> result prog;
  re_search : prog -> string -> option (list value);
  re_split : prog -> string -> Z -> list value
}.

Notation "' ( a , b ) <- r ;; k" :=
  (bind r (fun ab => let '(a, b) := ab in k))
  (at level 61, a name, b name, r at next level, right associativity).

(** A generator whose body fails before its next yield raises there. *)
Definition run (body : result traversal) : traversal :=
  match body with
  | Ok t => t
  | Raise e => Throw e
  end.

(** [next(it)] *)
Definition next (it : traversal) : result (pyseq * traversal) :=
  match it with
  | Yield x k => Ok (x, k)
  | Return => Raise StopIteration
  | Throw e => Raise e
  end.

(** [for row in it: yield f(row)] *)
Fixpoint for_yield (f : pyseq -> result pyseq) (it : traversal) : traversal :=
  match it with
  | Yield row k =>
      match f row with
      | Ok out => Yield out (for_yield f k)
      | Raise e => Throw e
      end
  | Return => Return
  | Throw e => Throw e
  end.

(** [for row in it: if cond(row): yield tuple(row)] *)
Fixpoint for_yield_if (cond : pyseq -> result bool) (it : traversal) : traversal :=
  match it with
  | Yield row k =>
      match cond row with
      | Ok true => Yield (tuple (elems row)) (for_yield_if cond k)
      | Ok false => for_yield_if cond k
      | Raise e => Throw e
      end
  | Return => Return
  | Throw e => Throw e
  end.

(** [if newfields: out_flds.extend(newfields)] *)
Definition extend_if (out_flds : list value) (newfields : option (list value))
  : list value :=
  match newfields with
  | Some (f :: nf) => out_flds ++ f :: nf
  | Some [] => out_flds
  | None => out_flds
  end.

Definition field_invalid : exn :=
  Exception_ "field invalid: must be either field name or index".

(** [operator.itemgetter] applied to the indices: one index gives the item itself, several
    give a tuple of the items, none is a TypeError. *)
Inductive getter : Type :=
| GetItem (i : Z)
| GetItems (indices : list Z).

Definition itemgetter (indices : list Z) : result getter :=
  match indices with
  | [] => Raise TypeError
  | [i] => Ok (GetItem i)
  | _ => Ok (GetItems indices)
  end.

Definition call_getter (g : getter) (r : pyseq) : result pyobj :=
  match g with
  | GetItem i => v <- getitem (elems r) i ;; Ok (OVal v)
  | GetItems indices =>
      vs <- mapM (getitem (elems r)) indices ;; Ok (OSeq (tuple vs))
  end.

(** [for v in o]: the elements of a list or tuple, the characters of a
    string; [None] and integers are not iterable. *)
Definition iterate (o : pyobj) : result (list value) :=
  match o with
  | OSeq q => Ok (elems q)
  | OVal (VStr s) =>
      Ok (map (fun c => VStr (String c EmptyString)) (list_ascii_of_string s))
  | OVal _ => Raise TypeError
  end.

(** Modelled from the spec: [asindices] of petl.util.base, which
    [itersearch] calls, is not among the sources.  Spec 4.1: a name resolves
    to its first exact match in header order; an integer is accepted only when
    it is a valid position within the header's length; anything else fails
    with a field-selection error carrying the offending selector value.  The
    result is the list of positional indices (spec 2), one per selected
    field. *)
Definition asindex (flds : list value) (s : value) : result Z :=
  match index_from 0 s flds with
  | Some i => Ok i
  | None =>
      match s with
      | VInt i =>
          if (0 <=? i) && (i <? len flds) then Ok i
          else Raise (FieldSelectionError (OVal s))
      | _ => Raise (FieldSelectionError (OVal s))
      end
  end.

Definition asindices (flds : list value) (spec : pyobj) : result (list Z) :=
  match spec with
  | OVal s => i <- asindex flds s ;; Ok [i]
  | OSeq q => mapM (asindex flds) (elems q)
  end.

Section Stages.

Variable E : ReEngine.

(** [re.compile(pattern, flags)] on an object: a pattern is a string. *)
Definition compile (pattern : pyobj) (flags : Z) : result (prog E) :=
  match pattern with
  | OVal (VStr p) => re_compile E p flags
  | _ => Raise TypeError
  end.

(** [prog.search(value)]: the groups of the first match, if any. *)
Definition search_groups (p : prog E) (v : value)
  : result (option (list value)) :=
  match v with
  | VStr s => Ok (re_search E p s)
  | _ => Raise TypeError
  end.

(** [prog.split(value, maxsplit)] *)
Definition split_pieces (p : prog E) (v : value) (maxsplit : Z)
  : result (list value) :=
  match v with
  | VStr s => Ok (re_split E p s maxsplit)
  | _ => Raise TypeError
  end.

(** Truth value of [prog.search(s)]. *)
Definition found (p : prog E) (s : string) : bool :=
  match re_search E p s with
  | Some _ => true
  | None => false
  end.

(** *** Capture *)

Definition did_not_match (v : value) (pattern : pyobj) : exn :=
  TransformError
    [Lit "value "; Repr (OVal v); Lit " did not match pattern "; Repr pattern].

(** The body of the loop of [itercapture]. *)
Definition capture_row (p : prog E) (pattern : pyobj) (field_index : Z)
    (include_original : bool) (fill : option (list value)) (row : pyseq)
  : result pyseq :=
  v <- getitem (elems row) field_index ;;
  let out_row :=
    if include_original then elems row
    else drop_index field_index (elems row) in
  m <- search_groups p v ;;
  match m with
  | None =>
      match fill with
      | Some f => Ok (tuple (out_row ++ f))
      | None => Raise (did_not_match v pattern)
      end
  | Some groups => Ok (tuple (out_row ++ groups))
  end.

Definition itercapture (source : traversal) (field : pyobj) (pattern : pyobj)
    (newfields : option (list value)) (include_original : bool) (flags : Z)
    (fill : option (list value)) : traversal :=
  run (
    p <- compile pattern flags ;;
    '(hdr, it) <- next source ;;
    let flds := elems hdr in
    field_index <-
      (if py_in field flds then index flds field
       else match field with
            | OVal (VInt i) =>
                if i <? len flds then Ok i else Raise field_invalid
            | _ => Raise field_invalid
            end) ;;
    out_flds <-
      (if negb include_original then remove flds field else Ok flds) ;;
    let out_flds := extend_if out_flds newfields in
    Ok (Yield (tuple out_flds)
          (for_yield
             (capture_row p pattern field_index include_original fill) it))).

(** *** Split *)

(** The body of the loop of [itersplit]. *)
Definition split_row (p : prog E) (field_index : Z) (include_original : bool)
    (maxsplit : Z) (row : pyseq) : result pyseq :=
  v <- getitem (elems row) field_index ;;
  let out_row :=
    if include_original then elems row
    else drop_index field_index (elems row) in
  pieces <- split_pieces p v maxsplit ;;
  Ok (tuple (out_row ++ pieces)).

Definition itersplit (source : traversal) (field : pyobj) (pattern : pyobj)
    (newfields : option (list value)) (include_original : bool) (maxsplit : Z)
    (flags : Z) : traversal :=
  run (
    p <- compile pattern flags ;;
    '(hdr, it) <- next source ;;
    let flds := elems hdr in
    '(field_index, field) <-
      (if py_in field flds then i <- index flds field ;; Ok (i, field)
       else match field with
            | OVal (VInt i) =>
                if i <? len flds
                then f <- getitem flds i ;; Ok (i, OVal f)
                else Raise field_invalid
            | _ => Raise field_invalid
            end) ;;
    out_flds <-
      (if negb include_original then remove flds field else Ok flds) ;;
    let out_flds := extend_if out_flds newfields in
    Ok (Yield (tuple out_flds)
          (for_yield (split_row p field_index include_original maxsplit) it))).

(** *** Search *)

(** The three ways [itersearch] builds [test] from [field]. *)
Definition test_whole_row (p : prog E) (r : pyseq) : result bool :=
  Ok (existsb (fun v => found p (str v)) (elems r)).

Definition test_single_field (p : prog E) (index : Z) (r : pyseq)
  : result bool :=
  v <- getitem (elems r) index ;; Ok (found p (str v)).

Definition test_selection (p : prog E) (getvals : getter) (r : pyseq)
  : result bool :=
  o <- call_getter getvals r ;;
  vs <- iterate o ;;
  Ok (existsb (fun v => found p (str v)) vs).

Definition make_test (p : prog E) (fields : list value) (field : pyobj)
  : result (pyseq -> result bool) :=
  match field with
  | OVal VNone => Ok (test_whole_row p)
  | OVal (VStr _) =>
      i <- index fields field ;; Ok (test_single_field p i)
  | _ =>
      indices <- asindices fields field ;;
      getvals <- itemgetter indices ;;
      Ok (test_selection p getvals)
  end.

Definition not_test (test : pyseq -> result bool) (r : pyseq) : result bool :=
  b <- test r ;; Ok (negb b).

Definition itersearch (table : traversal) (pattern : pyobj) (field : pyobj)
    (flags : Z) (complement : bool) : traversal :=
  run (
    p <- compile pattern flags ;;
    '(hdr, it) <- next table ;;
    let fields := map (fun f => VStr (str f)) (elems hdr) in
    Ok (Yield (tuple fields)
          (run (
             test <- make_test p fields field ;;
             if negb complement then Ok (for_yield_if test it)
             else Ok (for_yield_if (not_test test) it))))).

End Stages.

(** ** An instance of the library: [PyRe]

    Python's [re] for [str] patterns over ASCII text with [flags = 0], on the
    fragment: literal characters, [.], the classes [\w \W \d \D \s \S],
    escaped punctuation, capturing groups, alternation and the greedy
    quantifiers [* + ?] on a body that cannot match the empty string.
    Anything else is rejected by [compile].  Matching is leftmost, by
    backtracking, groups numbered from 1 by their opening parenthesis; split
    follows [re.split], empty matches included, the way Python 3.7 and later
    do it. *)

Module PyRe.

Inductive cclass : Type := Word | Digit | Space.

Inductive regex : Type :=
| Empty
| Chr (c : ascii)
| Any
| Class (negated : bool) (k : cclass)
| Seq (r1 r2 : regex)
| Alt (r1 r2 : regex)
| Star (r : regex)
| Plus (r : regex)
| Opt (r : regex)
| Group (n : nat) (r : regex).

Definition between (lo hi : nat) (c : ascii) : bool :=
  let n := nat_of_ascii c in (Nat.leb lo n && Nat.leb n hi)%bool.

Definition in_class (k : cclass) (c : ascii) : bool :=
  match k with
  | Digit => between 48 57 c
  | Word => between 48 57 c || between 65 90 c || between 97 122 c
            || between 95 95 c
  | Space => between 9 13 c || between 28 32 c
  end.

Fixpoint nullable (r : regex) : bool :=
  match r with
  | Empty => true
  | Chr _ | Any | Class _ _ => false
  | Seq r1 r2 => nullable r1 && nullable r2
  | Alt r1 r2 => nullable r1 || nullable r2
  | Star _ | Opt _ => true
  | Plus r1 => nullable r1
  | Group _ r1 => nullable r1
  end.

(** Group [n] is slot [n - 1]. *)
Definition caps : Type := list (option string).

Fixpoint set_cap (n : nat) (g : string) (c : caps) : caps :=
  match n, c with
  | _, [] => []
  | O, _ => c
  | S O, _ :: c' => Some g :: c'
  | S n', x :: c' => x :: set_cap n' g c'
  end.

(** The text between two positions of one string, each given by what is
    left of the string from there on. *)
Definition consumed (from upto : list ascii) : string :=
  string_of_list_ascii (firstn (List.length from - List.length upto) from).

Section Matcher.

Variable R : Type.

Definition cont : Type := list ascii -> caps -> option R.

(** Greedy repetition of [body]; an iteration has to consume something. *)
Fixpoint star (body : list ascii -> caps -> cont -> option R) (fuel : nat)
    (s : list ascii) (c : caps) (k : cont) : option R :=
  match fuel with
  | O => k s c
  | S fuel' =>
      match body s c (fun s' c' =>
                        if Nat.ltb (List.length s') (List.length s)
                        then star body fuel' s' c' k
                        else None) with
      | Some x => Some x
      | None => k s c
      end
  end.

Definition one (ok : ascii -> bool) (s : list ascii) (c : caps) (k : cont)
  : option R :=
  match s with
  | x :: s' => if ok x then k s' c else None
  | [] => None
  end.

Fixpoint mt (r : regex) (s : list ascii) (c : caps) (k : cont) : option R :=
  match r with
  | Empty => k s c
  | Chr a => one (Ascii.eqb a) s c k
  | Any => one (fun x => negb (Ascii.eqb x "010"%char)) s c k
  | Class negated cl => one (fun x => xorb negated (in_class cl x)) s c k
  | Seq r1 r2 => mt r1 s c (fun s' c' => mt r2 s' c' k)
  | Alt r1 r2 =>
      match mt r1 s c k with
      | Some x => Some x
      | None => mt r2 s c k
      end
  | Star r1 => star (mt r1) (S (List.length s)) s c k
  | Plus r1 =>
      mt r1 s c (fun s' c' => star (mt r1) (S (List.length s')) s' c' k)
  | Opt r1 =>
      match mt r1 s c k with
      | Some x => Some x
      | None => k s c
      end
  | Group n r1 =>
      mt r1 s c (fun s' c' => k s' (set_cap n (consumed s s') c'))
  end.

End Matcher.

Record prog : Type := Prog { re : regex; ngroups : nat }.

(** A match of [p] that starts where [s] starts: what is left after it and
    the groups.  With [must_advance] an empty match is not taken. *)
Definition match_at (p : prog) (must_advance : bool) (s : list ascii)
  : option (list ascii * caps) :=
  mt _ (re p) s (repeat None (ngroups p))
     (fun s' c =>
        if must_advance && Nat.eqb (List.length s') (List.length s)
        then None else Some (s', c)).

(** The leftmost match in [s]: how many characters come before it, what is
    left after it, and the groups.  [must_advance] binds the first position
    only. *)
Fixpoint scan (p : prog) (must_advance : bool) (skipped : nat)
    (s : list ascii) : option (nat * list ascii * caps) :=
  match match_at p must_advance s with
  | Some (rest, c) => Some (skipped, rest, c)
  | None =>
      match s with
      | [] => None
      | _ :: s' => scan p false (S skipped) s'
      end
  end.

Definition groups_of (c : caps) : list value :=
  map (fun g => match g with Some x => VStr x | None => VNone end) c.

Definition search (p : prog) (s : string) : option (list value) :=
  match scan p false 0 (list_ascii_of_string s) with
  | Some (_, _, c) => Some (groups_of c)
  | None => None
  end.

Definition piece (s : list ascii) : value := VStr (string_of_list_ascii s).

(** The loop of [split]: [n] splits done so far, [cur] the text from the end
    of the last match on. *)
Fixpoint split_loop (fuel : nat) (p : prog) (maxsplit n : Z)
    (must_advance : bool) (cur : list ascii) : list value :=
  match fuel with
  | O => [piece cur]
  | S fuel' =>
      if (maxsplit =? 0) || (n <? maxsplit) then
        match scan p must_advance 0 cur with
        | None => [piece cur]
        | Some (skipped, rest, c) =>
            let start := skipn skipped cur in
            piece (firstn skipped cur)
              :: groups_of c
              ++ split_loop fuel' p maxsplit (n + 1)
                   (Nat.eqb (List.length rest) (List.length start)) rest
        end
      else [piece cur]
  end.

Definition split (p : prog) (s : string) (maxsplit : Z) : list value :=
  let cur := list_ascii_of_string s in
  split_loop (2 * List.length cur + 2) p maxsplit 0 false cur.

(** *** Patterns *)

Definition is_meta (c : ascii) : bool :=
  existsb (Ascii.eqb c) (list_ascii_of_string ".^$*+?{}[]\|()").

Definition is_quantifier (c : ascii) : bool :=
  existsb (Ascii.eqb c) (list_ascii_of_string "*+?{").

Definition escape (c : ascii) : option regex :=
  match c with
  | "w"%char => Some (Class false Word)
  | "W"%char => Some (Class true Word)
  | "d"%char => Some (Class false Digit)
  | "D"%char => Some (Class true Digit)
  | "s"%char => Some (Class false Space)
  | "S"%char => Some (Class true Space)
  | _ => if is_meta c then Some (Chr c) else None
  end.

Definition quantify (q : ascii) (r : regex) : regex :=
  match q with
  | "*"%char => Star r
  | "+"%char => Plus r
  | _ => Opt r
  end.

(** A parse gives the expression, the rest of the pattern and the number of
    groups opened so far. *)
Definition parsed : Type := option (regex * list ascii * nat).

Fixpoint parse_alt (fuel : nat) (s : list ascii) (ng : nat) : parsed :=
  match fuel with
  | O => None
  | S fuel' =>
      match parse_seq fuel' s ng with
      | Some (r1, "|"%char :: s1, ng1) =>
          match parse_alt fuel' s1 ng1 with
          | Some (r2, s2, ng2) => Some (Alt r1 r2, s2, ng2)
          | None => None
          end
      | other => other
      end
  end
with parse_seq (fuel : nat) (s : list ascii) (ng : nat) : parsed :=
  match fuel with
  | O => None
  | S fuel' =>
      match s with
      | [] => Some (Empty, s, ng)
      | "|"%char :: _ => Some (Empty, s, ng)
      | ")"%char :: _ => Some (Empty, s, ng)
      | _ =>
          match parse_piece fuel' s ng with
          | Some (r1, s1, ng1) =>
              match parse_seq fuel' s1 ng1 with
              | Some (r2, s2, ng2) => Some (Seq r1 r2, s2, ng2)
              | None => None
              end
          | None => None
          end
      end
  end
with parse_piece (fuel : nat) (s : list ascii) (ng : nat) : parsed :=
  match fuel with
  | O => None
  | S fuel' =>
      match parse_atom fuel' s ng with
      | Some (a, q :: s1, ng1) =>
          if is_quantifier q then
            if Ascii.eqb q "{"%char || nullable a then None
            else match s1 with
                 | q' :: _ =>
                     if is_quantifier q' then None
                     else Some (quantify q a, s1, ng1)
                 | [] => Some (quantify q a, s1, ng1)
                 end
          else Some (a, q :: s1, ng1)
      | other => other
      end
  end
with parse_atom (fuel : nat) (s : list ascii) (ng : nat) : parsed :=
  match fuel with
  | O => None
  | S fuel' =>
      match s with
      | [] => None
      | "("%char :: "?"%char :: _ => None
      | "("%char :: s1 =>
          match parse_alt fuel' s1 (S ng) with
          | Some (r, ")"%char :: s2, ng2) => Some (Group (S ng) r, s2, ng2)
          | _ => None
          end
      | "."%char :: s1 => Some (Any, s1, ng)
      | "\"%char :: c :: s1 =>
          match escape c with
          | Some r => Some (r, s1, ng)
          | None => None
          end
      | c :: s1 => if is_meta c then None else Some (Chr c, s1, ng)
      end
  end.

Definition compile (pattern : string) (flags : Z) : result prog :=
  if flags =? 0 then
    let s := list_ascii_of_string pattern in
    match parse_alt (4 * List.length s + 8) s 0 with
    | Some (r, [], ng) => Ok (Prog r ng)
    | _ => Raise ReError
    end
  else Raise ReError.

Definition engine : ReEngine := Build_ReEngine prog compile search split.

End PyRe.

(** ** Tables and views

    A table is anything that can be iterated: a source outside this module
    (rows in memory, a file, ...), or a view over another table.  A view
    keeps a reference to its source and its own configuration, and nothing
    else.  What a source holds may change with time, so a traversal is taken
    at a moment [now]; a view started at [now] iterates its source at [now]. *)

Record CaptureView (T : Type) : Type := {
  cv_source : T;
  cv_field : pyobj;
  cv_pattern : pyobj;
  cv_newfields : option (list value);
  cv_include_original : bool;
  cv_flags : Z;
  cv_fill : option (list value)
}.

Record SplitView (T : Type) : Type := {
  sp_source : T;
  sp_field : pyobj;
  sp_pattern : pyobj;
  sp_newfields : option (list value);
  sp_include_original : bool;
  sp_maxsplit : Z;
  sp_flags : Z
}.

Record SearchView (T : Type) : Type := {
  sv_table : T;
  sv_pattern : pyobj;
  sv_field : pyobj;
  sv_flags : Z;
  sv_complement : bool
}.

Arguments cv_source {T}.
Arguments cv_field {T}.
Arguments cv_pattern {T}.
Arguments cv_newfields {T}.
Arguments cv_include_original {T}.
Arguments cv_flags {T}.
Arguments cv_fill {T}.
Arguments sp_source {T}.
Arguments sp_field {T}.
Arguments sp_pattern {T}.
Arguments sp_newfields {T}.
Arguments sp_include_original {T}.
Arguments sp_maxsplit {T}.
Arguments sp_flags {T}.
Arguments sv_table {T}.
Arguments sv_pattern {T}.
Arguments sv_field {T}.
Arguments sv_flags {T}.
Arguments sv_complement {T}.

#[warnings="-register-all"]
Inductive table : Type :=
| Source (content : nat -> list pyseq)
| OfCapture (v : CaptureView table)
| OfSplit (v : SplitView table)
| OfSearch (v : SearchView table).

(** Keyword arguments of [search]: those [SearchView] accepts besides
    [field]. *)
Record kwargs : Type := {
  kw_flags : option Z;
  kw_complement : option bool
}.

Definition default {A : Type} (d : A) (o : option A) : A :=
  match o with
  | Some a => a
  | None => d
  end.

Definition capture (t : table) (field pattern : pyobj)
    (newfields : option (list value)) (include_original : bool) (flags : Z)
    (fill : option (list value)) : table :=
  OfCapture {| cv_source := t; cv_field := field; cv_pattern := pattern;
               cv_newfields := newfields;
               cv_include_original := include_original;
               cv_flags := flags; cv_fill := fill |}.

Definition split (t : table) (field pattern : pyobj)
    (newfields : option (list value)) (include_original : bool)
    (maxsplit flags : Z) : table :=
  OfSplit {| sp_source := t; sp_field := field; sp_pattern := pattern;
             sp_newfields := newfields;
             sp_include_original := include_original;
             sp_maxsplit := maxsplit; sp_flags := flags |}.

Definition search (t : table) (args : list pyobj) (kw : kwargs)
  : result table :=
  match args with
  | [pattern] =>
      Ok (OfSearch {| sv_table := t; sv_pattern := pattern;
                      sv_field := OVal VNone;
                      sv_flags := default 0 (kw_flags kw);
                      sv_complement := default false (kw_complement kw) |})
  | [field; pattern] =>
      Ok (OfSearch {| sv_table := t; sv_pattern := pattern;
                      sv_field := field;
                      sv_flags := default 0 (kw_flags kw);
                      sv_complement := default false (kw_complement kw) |})
  | _ => Raise (Exception_ "expected 1 or 2 arguments")
  end.

(** [search(table, *args, complement=True, **kwargs)]: a [complement] among
    the keyword arguments is given twice. *)
Definition searchcomplement (t : table) (args : list pyobj) (kw : kwargs)
  : result table :=
  match kw_complement kw with
  | Some _ => Raise TypeError
  | None =>
      search t args {| kw_flags := kw_flags kw; kw_complement := Some true |}
  end.

Section Iter.

Variable E : ReEngine.

(** [iter(t)] at the moment [now]: the [__iter__] of each view. *)
Fixpoint iter (now : nat) (t : table) : traversal :=
  match t with
  | Source content => of_rows (content now)
  | OfCapture v =>
      itercapture E (iter now (cv_source v)) (cv_field v) (cv_pattern v)
        (cv_newfields v) (cv_include_original v) (cv_flags v) (cv_fill v)
  | OfSplit v =>
      itersplit E (iter now (sp_source v)) (sp_field v) (sp_pattern v)
        (sp_newfields v) (sp_include_original v) (sp_maxsplit v) (sp_flags v)
  | OfSearch v =>
      itersearch E (iter now (sv_table v)) (sv_pattern v) (sv_field v)
        (sv_flags v) (sv_complement v)
  end.

End Iter.

(** A table is deterministic when the sources it rests on hold the same rows
    whenever they are read. *)
Fixpoint deterministic (t : table) : Prop :=
  match t with
  | Source content => forall i j : nat, content i = content j
  | OfCapture v => deterministic (cv_source v)
  | OfSplit v => deterministic (sp_source v)
  | OfSearch v => deterministic (sv_table v)
  end.

(** A table whose rows never change. *)
Definition fixed (rows : list pyseq) : table := Source (fun _ => rows).

(** * Properties *)

(** ** Sequences *)

(** A list without the element at position [i]. *)
Definition without (i : Z) (l : list value) : list value :=
  firstn (Z.to_nat i) l ++ skipn (S (Z.to_nat i)) l.

Definition retuple (r : pyseq) : pyseq := tuple (elems r).

Definition is_str (v : value) : bool :=
  match v with
  | VStr _ => true
  | _ => false
  end.

Lemma value_eqb_eq (a b : value) : value_eqb a b = true <-> a = b.
Proof.
  destruct a, b; simpl; split; intro H; try discriminate; try reflexivity.
  - apply Z.eqb_eq in H. now subst.
  - inversion H. apply Z.eqb_refl.
  - apply String.eqb_eq in H. now subst.
  - inversion H. apply String.eqb_refl.
Qed.

Lemma drop_index_from_spec (l : list value) :
  forall i k, i <= k ->
    drop_index_from i k l
    = firstn (Z.to_nat (k - i)) l ++ skipn (S (Z.to_nat (k - i))) l.
Proof.
  induction l as [|v l IH]; intros i k Hik; simpl.
  - now rewrite firstn_nil.
  - destruct (Z.eqb_spec i k) as [->|Hne].
    + rewrite Z.sub_diag. simpl.
      clear IH Hik. revert k.
      induction l as [|w l IHl]; intro k; simpl; [reflexivity|].
      destruct (Z.eqb_spec (k + 1) k) as [Hk|_]; [lia|].
      f_equal. specialize (IHl (k + 1)).
      assert (H : forall j m, j < m -> drop_index_from m j l = l).
      { clear. induction l as [|x l IHl]; intros j m Hjm; simpl; [reflexivity|].
        destruct (Z.eqb_spec m j); [lia|]. f_equal. apply IHl. lia. }
      apply H. lia.
    + rewrite IH by lia.
      replace (Z.to_nat (k - i)) with (S (Z.to_nat (k - (i + 1)))) by lia.
      reflexivity.
Qed.

Lemma drop_index_without (i : Z) (l : list value) :
  0 <= i -> drop_index i l = without i l.
Proof.
  intro Hi. unfold drop_index, without.
  rewrite drop_index_from_spec by lia. now rewrite Z.sub_0_r.
Qed.

Lemma index_from_spec (v : value) (l : list value) :
  forall i j, index_from i v l = Some j ->
    i <= j < i + len l
    /\ nth_error l (Z.to_nat (j - i)) = Some v
    /\ remove_first v l
       = Some (firstn (Z.to_nat (j - i)) l ++ skipn (S (Z.to_nat (j - i))) l).
Proof.
  unfold len. induction l as [|x l IH]; intros i j H; simpl in *; [discriminate|].
  destruct (value_eqb x v) eqn:Hx.
  - inversion H; subst j. apply value_eqb_eq in Hx. subst x.
    rewrite Z.sub_diag. simpl. repeat split; lia.
  - apply IH in H. destruct H as (Hr & Hn & Hrm).
    replace (Z.to_nat (j - i)) with (S (Z.to_nat (j - (i + 1)))) by lia.
    simpl. rewrite Hrm. repeat split; try lia. exact Hn.
Qed.

Lemma index_from_in (v : value) (l : list value) :
  forall i, existsb (value_eqb v) l = true -> exists j, index_from i v l = Some j.
Proof.
  induction l as [|x l IH]; intros i H; simpl in *; [discriminate|].
  destruct (value_eqb x v) eqn:Hx; [eauto|].
  apply IH. apply orb_true_iff in H. destruct H as [H|H]; [|exact H].
  apply value_eqb_eq in H. subst x.
  assert (Hv : value_eqb v v = true) by now apply value_eqb_eq.
  congruence.
Qed.

Lemma index_from_none (v : value) (l : list value) :
  forall i, existsb (value_eqb v) l = false -> index_from i v l = None.
Proof.
  induction l as [|x l IH]; intros i H; simpl in *; [reflexivity|].
  apply orb_false_iff in H. destruct H as [H1 H2].
  destruct (value_eqb x v) eqn:Hx; [|now apply IH].
  apply value_eqb_eq in Hx. subst x.
  assert (Hv : value_eqb v v = true) by now apply value_eqb_eq.
  congruence.
Qed.

Lemma index_some_in (v : value) (l : list value) :
  forall i j, index_from i v l = Some j -> existsb (value_eqb v) l = true.
Proof.
  induction l as [|x l IH]; intros i j H; simpl in *; [discriminate|].
  destruct (value_eqb x v) eqn:Hx.
  - apply value_eqb_eq in Hx. subst x.
    assert (Hv : value_eqb v v = true) by now apply value_eqb_eq.
    now rewrite Hv.
  - apply IH in H. rewrite H. apply orb_true_r.
Qed.

(** A field found by name: its index is in range, it is where [index] says,
    and [remove] takes exactly that position out. *)
Lemma index_ok (l : list value) (field : pyobj) (i : Z) :
  index l field = Ok i ->
  py_in field l = true /\ 0 <= i < len l /\ remove l field = Ok (without i l).
Proof.
  unfold index, remove, py_in, without. destruct field as [v|q]; [|discriminate].
  destruct (index_from 0 v l) as [j|] eqn:Hj; [|discriminate].
  intro H; inversion H; subst j.
  pose proof (index_some_in _ _ _ _ Hj) as Hin.
  apply index_from_spec in Hj. destruct Hj as (Hr & _ & Hrm).
  rewrite Z.sub_0_r in Hrm. rewrite Hrm. repeat split; auto; lia.
Qed.

Lemma getitem_nth (l : list value) (i : Z) (v : value) :
  0 <= i -> getitem l i = Ok v -> nth_error l (Z.to_nat i) = Some v.
Proof.
  intros Hi. unfold getitem. cbv zeta.
  destruct (Z.ltb_spec i 0); [lia|].
  destruct ((0 <=? i) && (i <? len l)); [|discriminate].
  destruct (nth_error l (Z.to_nat i)); [|discriminate].
  now intros [= ->].
Qed.

(** ** Traversals *)

(** Yield the elements of [l], then go on as [t]. *)
Fixpoint yields (l : list pyseq) (t : traversal) : traversal :=
  match l with
  | [] => t
  | x :: l' => Yield x (yields l' t)
  end.

Lemma yielded_yields (l : list pyseq) (t : traversal) :
  yielded (yields l t) = l ++ yielded t.
Proof. induction l; simpl; congruence. Qed.

Lemma final_yields (l : list pyseq) (t : traversal) :
  final (yields l t) = final t.
Proof. induction l; simpl; congruence. Qed.

Lemma of_rows_yields (l : list pyseq) : of_rows l = yields l Return.
Proof. induction l; simpl; congruence. Qed.

Lemma yielded_of_rows (l : list pyseq) : yielded (of_rows l) = l.
Proof. induction l; simpl; congruence. Qed.

Lemma yields_app (l1 l2 : list pyseq) (t : traversal) :
  yields (l1 ++ l2) t = yields l1 (yields l2 t).
Proof. induction l1; simpl; congruence. Qed.

(** Rows that the loop body accepts are yielded transformed, one for one. *)
Lemma for_yield_yields (f : pyseq -> result pyseq) (rest : traversal) :
  forall before outs,
    Forall2 (fun r o => f r = Ok o) before outs ->
    for_yield f (yields before rest) = yields outs (for_yield f rest).
Proof.
  induction 1 as [|r o before outs Hr _ IH]; simpl; [reflexivity|].
  now rewrite Hr, IH.
Qed.

(** The n-th element a loop yields is the image of the n-th element of its
    source. *)
Lemma for_yield_nth (f : pyseq -> result pyseq) (it : traversal) :
  forall n out,
    nth_error (yielded (for_yield f it)) n = Some out ->
    exists row, nth_error (yielded it) n = Some row /\ f row = Ok out.
Proof.
  induction it as [row k IH| |e]; intros n out H; simpl in H.
  - destruct (f row) as [o|e] eqn:Hf; simpl in H.
    + destruct n as [|n]; simpl in *.
      * inversion H; subst. eauto.
      * apply IH in H. exact H.
    + destruct n; discriminate.
  - destruct n; discriminate.
  - destruct n; discriminate.
Qed.

Lemma for_yield_tuples (f : pyseq -> result pyseq) (it : traversal) :
  (forall r o, f r = Ok o -> is_tuple o = true) ->
  Forall (fun x => is_tuple x = true) (yielded (for_yield f it)).
Proof.
  intro Hf. induction it as [row k IH| |e]; simpl; auto.
  destruct (f row) as [o|e] eqn:Ho; simpl; auto.
  constructor; eauto.
Qed.

Lemma for_yield_if_tuples (cond : pyseq -> result bool) (it : traversal) :
  Forall (fun x => is_tuple x = true) (yielded (for_yield_if cond it)).
Proof.
  induction it as [row k IH| |e]; simpl; auto.
  destruct (cond row) as [[|]|e]; simpl; auto.
Qed.

(** What a filtering loop yields comes from its source, values unchanged. *)
Lemma for_yield_if_from_source (cond : pyseq -> result bool) (it : traversal) :
  Forall (fun out => exists r, In r (yielded it) /\ out = retuple r)
         (yielded (for_yield_if cond it)).
Proof.
  induction it as [row k IH| |e]; simpl; auto.
  assert (IH' : Forall (fun out => exists r,
                          (row = r \/ In r (yielded k)) /\ out = retuple r)
                       (yielded (for_yield_if cond k))).
  { eapply Forall_impl; [|exact IH]. intros out (r & Hin & ->). eauto. }
  destruct (cond row) as [[|]|e]; simpl; auto.
  constructor; [|exact IH']. exists row. split; [now left | reflexivity].
Qed.

(** The truth value a test gives, taking an error for a refusal. *)
Definition holds (cond : pyseq -> result bool) (r : pyseq) : bool :=
  match cond r with
  | Ok b => b
  | Raise _ => false
  end.

(** A filtering loop that runs to its end has tested every row of its source
    without error, and has yielded those that passed. *)
Lemma for_yield_if_done (cond : pyseq -> result bool) (it : traversal) :
  final (for_yield_if cond it) = Done ->
  final it = Done
  /\ Forall (fun r => exists b, cond r = Ok b) (yielded it)
  /\ yielded (for_yield_if cond it)
     = map retuple (filter (holds cond) (yielded it)).
Proof.
  induction it as [row k IH| |e]; simpl; intro H.
  - unfold holds at 1.
    destruct (cond row) as [b|e] eqn:Hc; [|discriminate].
    assert (Hk : final (for_yield_if cond k) = Done) by (destruct b; exact H).
    destruct (IH Hk) as (Hf & Hall & Hy).
    repeat split; auto.
    + constructor; eauto.
    + destruct b; simpl; now rewrite Hy.
  - repeat split; auto.
  - discriminate.
Qed.

Lemma not_test_done (test : pyseq -> result bool) (it : traversal) :
  final it = Done ->
  Forall (fun r => exists b, test r = Ok b) (yielded it) ->
  final (for_yield_if (not_test test) it) = Done
  /\ yielded (for_yield_if (not_test test) it)
     = map retuple (filter (fun r => negb (holds test r)) (yielded it)).
Proof.
  induction it as [row k IH| |e]; simpl; intros Hf Hall.
  - inversion Hall as [|? ? [b Hb] Hall']; subst.
    destruct (IH Hf Hall') as (Hd & Hy).
    assert (Hn : not_test test row = Ok (negb b))
      by (unfold not_test; now rewrite Hb).
    assert (Hh : holds test row = b) by (unfold holds; now rewrite Hb).
    rewrite Hn, Hh. destruct b; simpl; split; auto. now rewrite Hy.
  - split; reflexivity.
  - discriminate.
Qed.

(** ** The stages, field by field *)

(** The part of a row (or header) that a stage keeps: all of it, or all but
    position [i]. *)
Definition kept (i : Z) (include_original : bool) (row : pyseq) : list value :=
  if include_original then elems row else without i (elems row).

Lemma extend_if_app (l : list value) (newfields : option (list value)) :
  extend_if l newfields = l ++ default [] newfields.
Proof.
  destruct newfields as [[|f nf]|]; simpl; auto using app_nil_r.
Qed.

Section StageFacts.

Variable E : ReEngine.

(** With the field given by a name of the header, [itercapture] yields the
    header and enters its loop. *)
Lemma itercapture_by_name (hdr : pyseq) (it : traversal) (field pattern : pyobj)
    (newfields : option (list value)) (include_original : bool) (flags : Z)
    (fill : option (list value)) (p : prog E) (i : Z) :
  compile E pattern flags = Ok p ->
  index (elems hdr) field = Ok i ->
  itercapture E (Yield hdr it) field pattern newfields include_original flags
    fill
  = Yield (tuple (kept i include_original hdr ++ default [] newfields))
      (for_yield (capture_row E p pattern i include_original fill) it).
Proof.
  intros Hc Hi. unfold itercapture. rewrite Hc. simpl.
  destruct (index_ok _ _ _ Hi) as (Hin & _ & Hrm).
  rewrite Hin, Hi. simpl. unfold kept.
  destruct include_original; simpl.
  - now rewrite extend_if_app.
  - rewrite Hrm. simpl. now rewrite extend_if_app.
Qed.

Lemma itersplit_by_name (hdr : pyseq) (it : traversal) (field pattern : pyobj)
    (newfields : option (list value)) (include_original : bool)
    (maxsplit flags : Z) (p : prog E) (i : Z) :
  compile E pattern flags = Ok p ->
  index (elems hdr) field = Ok i ->
  itersplit E (Yield hdr it) field pattern newfields include_original maxsplit
    flags
  = Yield (tuple (kept i include_original hdr ++ default [] newfields))
      (for_yield (split_row E p i include_original maxsplit) it).
Proof.
  intros Hc Hi. unfold itersplit. rewrite Hc. simpl.
  destruct (index_ok _ _ _ Hi) as (Hin & _ & Hrm).
  rewrite Hin, Hi. simpl. unfold kept.
  destruct include_original; simpl.
  - now rewrite extend_if_app.
  - rewrite Hrm. simpl. now rewrite extend_if_app.
Qed.

(** The header phase of [itercapture] settles on position [i] and goes on to
    yield a header: the field is a name of the header, first found at [i]; or
    it is the integer [i], below the header's length and not itself a field
    name, and the original field is kept. *)
Definition capture_selects (field : pyobj) (hdr : pyseq)
    (include_original : bool) (i : Z) : Prop :=
  index (elems hdr) field = Ok i
  \/ (py_in field (elems hdr) = false /\ field = OVal (VInt i)
      /\ i < len (elems hdr) /\ include_original = true).

(** The header phase of [itersplit] settles on position [i] of the header:
    by name as above, or by the integer [i] when it is a position of the
    header. *)
Definition split_selects (field : pyobj) (hdr : pyseq) (i : Z) : Prop :=
  index (elems hdr) field = Ok i
  \/ (py_in field (elems hdr) = false /\ field = OVal (VInt i)
      /\ 0 <= i < len (elems hdr)).

Lemma capture_selects_position (field : pyobj) (hdr : pyseq)
    (include_original : bool) (i : Z) :
  capture_selects field hdr include_original i ->
  0 <= i \/ include_original = true.
Proof.
  intros [Hi|(_ & _ & _ & Hk)]; [left | now right].
  apply index_ok in Hi. lia.
Qed.

Lemma split_selects_position (field : pyobj) (hdr : pyseq) (i : Z) :
  split_selects field hdr i -> 0 <= i.
Proof.
  intros [Hi|(_ & _ & Hr)]; [|lia]. apply index_ok in Hi. lia.
Qed.

Lemma itercapture_selected (hdr : pyseq) (it : traversal)
    (field pattern : pyobj) (newfields : option (list value))
    (include_original : bool) (flags : Z) (fill : option (list value))
    (p : prog E) (i : Z) :
  compile E pattern flags = Ok p ->
  capture_selects field hdr include_original i ->
  itercapture E (Yield hdr it) field pattern newfields include_original flags
    fill
  = Yield (tuple (kept i include_original hdr ++ default [] newfields))
      (for_yield (capture_row E p pattern i include_original fill) it).
Proof.
  intros Hc [Hi|(Hin & -> & Hlt & ->)].
  - now apply itercapture_by_name.
  - unfold itercapture. rewrite Hc. cbn [bind next]. rewrite Hin.
    destruct (Z.ltb_spec i (len (elems hdr))); [|lia].
    cbn [bind negb run kept]. now rewrite extend_if_app.
Qed.

Lemma remove_first_in (v : value) (l : list value) :
  In v l -> exists r, remove_first v l = Some r.
Proof.
  induction l as [|x l IH]; simpl; [tauto|]. intros [->|Hin].
  - assert (Hv : value_eqb v v = true) by now apply value_eqb_eq.
    rewrite Hv. eauto.
  - destruct (value_eqb x v); [eauto|].
    destruct (IH Hin) as [r ->]. eauto.
Qed.

Lemma getitem_in_range (l : list value) (i : Z) :
  0 <= i < len l -> exists v, getitem l i = Ok v /\ In v l.
Proof.
  intro Hi. unfold getitem. cbv zeta.
  destruct (Z.ltb_spec i 0); [lia|].
  destruct (Z.leb_spec 0 i); [|lia].
  destruct (Z.ltb_spec i (len l)); [|lia]. simpl.
  destruct (nth_error l (Z.to_nat i)) as [v|] eqn:Hn.
  - exists v. split; [reflexivity|]. eapply nth_error_In; eauto.
  - apply nth_error_None in Hn. unfold len in Hi. lia.
Qed.

Lemma itersplit_selected (hdr : pyseq) (it : traversal)
    (field pattern : pyobj) (newfields : option (list value))
    (include_original : bool) (maxsplit flags : Z) (p : prog E) (i : Z) :
  compile E pattern flags = Ok p ->
  split_selects field hdr i ->
  exists header,
    itersplit E (Yield hdr it) field pattern newfields include_original
      maxsplit flags
    = Yield header (for_yield (split_row E p i include_original maxsplit) it).
Proof.
  intros Hc [Hi|(Hin & -> & Hr)].
  - eexists. now apply itersplit_by_name.
  - unfold itersplit. rewrite Hc. cbn [bind next]. rewrite Hin.
    destruct (Z.ltb_spec i (len (elems hdr))); [|lia].
    destruct (getitem_in_range _ _ Hr) as (f & Hf & Hfin).
    rewrite Hf. cbn [bind]. destruct include_original; cbn [negb bind run].
    + eexists. reflexivity.
    + unfold remove. destruct (remove_first_in _ _ Hfin) as [r ->].
      cbn [bind run]. eexists. reflexivity.
Qed.

(** The loop body of [itercapture] on a row whose target is the string [s]. *)
Lemma capture_row_string (p : prog E) (pattern : pyobj) (i : Z)
    (include_original : bool) (fill : option (list value)) (row : pyseq)
    (s : string) :
  0 <= i \/ include_original = true ->
  getitem (elems row) i = Ok (VStr s) ->
  capture_row E p pattern i include_original fill row
  = match re_search E p s, fill with
    | Some groups, _ => Ok (tuple (kept i include_original row ++ groups))
    | None, Some f => Ok (tuple (kept i include_original row ++ f))
    | None, None => Raise (did_not_match (VStr s) pattern)
    end.
Proof.
  intros Hi Hv. unfold capture_row, kept. rewrite Hv. simpl.
  assert (Hk : (if include_original then elems row
                else drop_index i (elems row))
               = if include_original then elems row
                 else without i (elems row)).
  { destruct include_original; [reflexivity|].
    destruct Hi as [Hi|Hi]; [|discriminate].
    now apply drop_index_without. }
  rewrite Hk.
  destruct (re_search E p s); [reflexivity|]. destruct fill; reflexivity.
Qed.

(** The loop body of [itersplit] on a row whose target is the string [s]. *)
Lemma split_row_string (p : prog E) (i : Z) (include_original : bool)
    (maxsplit : Z) (row : pyseq) (s : string) :
  0 <= i ->
  getitem (elems row) i = Ok (VStr s) ->
  split_row E p i include_original maxsplit row
  = Ok (tuple (kept i include_original row ++ re_split E p s maxsplit)).
Proof.
  intros Hi Hv. unfold split_row, kept. rewrite Hv. simpl.
  now rewrite drop_index_without by exact Hi.
Qed.

Lemma capture_row_tuple (p : prog E) (pattern : pyobj) (i : Z)
    (include_original : bool) (fill : option (list value)) (row out : pyseq) :
  capture_row E p pattern i include_original fill row = Ok out ->
  is_tuple out = true.
Proof.
  unfold capture_row.
  destruct (getitem (elems row) i) as [v|]; simpl; [|discriminate].
  destruct (search_groups E p v) as [[g|]|]; simpl; try discriminate.
  - now intros [= <-].
  - destruct fill; [|discriminate]. now intros [= <-].
Qed.

Lemma split_row_tuple (p : prog E) (i : Z) (include_original : bool)
    (maxsplit : Z) (row out : pyseq) :
  split_row E p i include_original maxsplit row = Ok out ->
  is_tuple out = true.
Proof.
  unfold split_row.
  destruct (getitem (elems row) i) as [v|]; simpl; [|discriminate].
  destruct (split_pieces E p v maxsplit); simpl; [|discriminate].
  now intros [= <-].
Qed.

End StageFacts.

(** ** Capture: the groups of the first match are appended *)

(** The table of the docstring of [capture], cut to its first row. *)
Definition capture_header : pyseq :=
  pylist [VStr "id"; VStr "variable"; VStr "value"].

Definition capture_table : list pyseq :=
  [capture_header; pylist [VStr "1"; VStr "A1"; VStr "12"]].

Definition word_digits : pyobj := OVal (VStr "(\w)(\d+)").

Definition treat_time : option (list value) :=
  Some [VStr "treat"; VStr "time"].



(** ** Capture: a value that does not match *)

(** C3.  Capture, with a field selector that the header phase resolves, on
    a source whose rows [before] are transformed into [outs] and whose next
    row has a target value [s] that the pattern does not match.  With a fill sequence [f] the row is yielded
    with [f] appended as it is and the loop carries on with the rest of the
    source.  Without one the traversal has yielded the header and [outs], the
    images of the earlier rows, and ends there by raising the transform error
    whose message is built from the value and the pattern. *)
Theorem capture_no_match (E : ReEngine) (hdr : pyseq) (before : list pyseq)
    (row : pyseq) (rest : traversal) (field pattern : pyobj)
    (newfields : option (list value)) (include_original : bool) (flags : Z)
    (fill : option (list value)) (p : prog E) (i : Z) (s : string)
    (outs : list pyseq) :
  compile E pattern flags = Ok p ->
  capture_selects field hdr include_original i ->
  Forall2 (fun r o => capture_row E p pattern i include_original fill r = Ok o)
    before outs ->
  getitem (elems row) i = Ok (VStr s) ->
  re_search E p s = None ->
  let t := itercapture E (Yield hdr (yields before (Yield row rest))) field
             pattern newfields include_original flags fill in
  let header := tuple (kept i include_original hdr ++ default [] newfields) in
  match fill with
  | Some f =>
      t = yields (header :: outs ++ [tuple (kept i include_original row ++ f)])
            (for_yield (capture_row E p pattern i include_original fill) rest)
  | None =>
      t = yields (header :: outs)
            (Throw (TransformError
                      [Lit "value "; Repr (OVal (VStr s));
                       Lit " did not match pattern "; Repr pattern]))
      /\ yielded t = header :: outs
      /\ final t
         = Raised (TransformError
                     [Lit "value "; Repr (OVal (VStr s));
                      Lit " did not match pattern "; Repr pattern])
  end.
Proof.
  intros Hc Hi Hbefore Hv Hm t header. subst t header.
  rewrite (itercapture_selected E _ _ _ _ _ _ _ _ p i Hc Hi).
  rewrite (for_yield_yields _ _ _ _ Hbefore).
  simpl for_yield.
  rewrite (capture_row_string E p pattern i include_original fill row s)
    by eauto using capture_selects_position.
  rewrite Hm. destruct fill as [f|].
  - simpl. now rewrite yields_app.
  - unfold did_not_match. split; [reflexivity|].
    simpl. rewrite yielded_yields, final_yields. simpl.
    now rewrite app_nil_r.
Qed.

Lemma capture_no_match_witness :
  let t := itercapture PyRe.engine
             (Yield capture_header
                (yields [pylist [VStr "1"; VStr "A1"; VStr "12"]]
                   (Yield (pylist [VStr "2"; VStr "??"; VStr "15"])
                      (of_rows [pylist [VStr "3"; VStr "B1"; VStr "18"]]))))
             (OVal (VStr "variable")) word_digits treat_time false 0 None in
  let header :=
    tuple (kept 1 false capture_header ++ default [] treat_time) in
  let raised :=
    TransformError [Lit "value "; Repr (OVal (VStr "??"));
                    Lit " did not match pattern "; Repr word_digits] in
  t = yields [header; tuple [VStr "1"; VStr "12"; VStr "A"; VStr "1"]]
        (Throw raised)
  /\ yielded t = [header; tuple [VStr "1"; VStr "12"; VStr "A"; VStr "1"]]
  /\ final t = Raised raised.
Proof.
  eapply (capture_no_match PyRe.engine capture_header
            [pylist [VStr "1"; VStr "A1"; VStr "12"]]
            (pylist [VStr "2"; VStr "??"; VStr "15"])
            (of_rows [pylist [VStr "3"; VStr "B1"; VStr "18"]])
            (OVal (VStr "variable")) word_digits treat_time false 0 None
            _ 1 "??" [tuple [VStr "1"; VStr "12"; VStr "A"; VStr "1"]]).
  - reflexivity.
  - left. reflexivity.
  - repeat constructor.
  - reflexivity.
  - reflexivity.
Defined.

(** ** Split: the pieces are appended, and every string can be split *)

(** Where the pattern is not found there is nothing to split on. *)
Lemma split_without_match (p : PyRe.prog) (s : string) (maxsplit : Z) :
  PyRe.search p s = None -> PyRe.split p s maxsplit = [VStr s].
Proof.
  unfold PyRe.search, PyRe.split. intro H.
  rewrite Nat.add_comm. simpl.
  destruct (PyRe.scan p false 0 (list_ascii_of_string s)) as [[[k r] c]|];
    [discriminate|].
  unfold PyRe.piece. rewrite string_of_list_ascii_of_string.
  now destruct ((maxsplit =? 0) || (0 <? maxsplit)).
Qed.

(** A loop over rows in memory that all have a string at the target position
    runs to its end and yields one row for each. *)
Lemma split_rows_total (E : ReEngine) (p : prog E) (i : Z)
    (include_original : bool) (maxsplit : Z) (rows : list pyseq) :
  0 <= i ->
  Forall (fun r => exists s, getitem (elems r) i = Ok (VStr s)) rows ->
  exists outs,
    for_yield (split_row E p i include_original maxsplit) (of_rows rows)
    = of_rows outs
    /\ List.length outs = List.length rows.
Proof.
  intros Hi. induction 1 as [|r rows [s Hs] _ (outs & Hy & Hl)]; simpl.
  - exists []. auto.
  - rewrite (split_row_string E p i include_original maxsplit r s Hi Hs).
    eexists (_ :: outs). simpl. rewrite Hy, Hl. auto.
Qed.

(** C5.  Split on the first row of the docstring's table: pattern [d] on
    'parad1' with [maxsplit = 0] gives the pieces 'para' and '1', which take
    the place of the target value at the end of the row.  A bound of 2 stops
    after two splits, 0 splits at every match.  A value the pattern is not
    found in comes back as a single piece.  In general, for any engine and
    a field selector resolved to a position of the header (a name, or an
    integer that is one of its positions), the n-th data row yielded is the n-th
    source row (without the target field unless it is kept) followed by the
    pieces the engine's split gives for its target value and [maxsplit]; over
    rows whose target values are strings the traversal yields one row per
    source row and ends normally, whether the pattern matches or not. *)
Theorem split_appends_pieces :
  itersplit PyRe.engine
    (of_rows [capture_header; pylist [VStr "1"; VStr "parad1"; VStr "12"]])
    (OVal (VStr "variable")) (OVal (VStr "d"))
    (Some [VStr "variable"; VStr "day"]) false 0 0
  = of_rows [tuple [VStr "id"; VStr "value"; VStr "variable"; VStr "day"];
             tuple [VStr "1"; VStr "12"; VStr "para"; VStr "1"]]
  /\ (p <- PyRe.compile "d" 0 ;; Ok (PyRe.split p "parad1" 0))
     = Ok [VStr "para"; VStr "1"]
  /\ (p <- PyRe.compile "d" 0 ;;
      Ok (PyRe.split p "dadbdcd" 2, PyRe.split p "dadbdcd" 0))
     = Ok ([VStr ""; VStr "a"; VStr "bdcd"],
           [VStr ""; VStr "a"; VStr "b"; VStr "c"; VStr ""])
  /\ (forall (p : PyRe.prog) (s : string) (maxsplit : Z),
        PyRe.search p s = None -> PyRe.split p s maxsplit = [VStr s])
  /\ forall (E : ReEngine) (hdr : pyseq) (it : traversal)
       (field pattern : pyobj) (newfields : option (list value))
       (include_original : bool) (maxsplit flags : Z) (p : prog E) (i : Z),
       compile E pattern flags = Ok p ->
       split_selects field hdr i ->
       let t := itersplit E (Yield hdr it) field pattern newfields
                  include_original maxsplit flags in
       (forall (n : nat) (row out : pyseq) (s : string),
          nth_error (yielded it) n = Some row ->
          nth_error (data_rows t) n = Some out ->
          getitem (elems row) i = Ok (VStr s) ->
          out = tuple (kept i include_original row
                         ++ re_split E p s maxsplit))
       /\ (forall rows : list pyseq,
             it = of_rows rows ->
             Forall (fun r => exists s, getitem (elems r) i = Ok (VStr s))
               rows ->
             final t = Done
             /\ List.length (data_rows t) = List.length rows).
Proof.
  split; [reflexivity|]. split; [reflexivity|]. split; [reflexivity|].
  split; [exact split_without_match|].
  intros E hdr it field pattern newfields include_original maxsplit flags p i
    Hc Hi t. subst t.
  destruct (itersplit_selected E hdr it field pattern newfields
              include_original maxsplit flags p i Hc Hi) as (header & ->).
  pose proof (split_selects_position _ _ _ Hi) as Hrange.
  unfold data_rows. simpl. split.
  - intros n row out s Hrow Hout Hv.
    apply for_yield_nth in Hout. destruct Hout as (row' & Hrow' & Hf).
    assert (row' = row) by congruence. subst row'.
    rewrite (split_row_string E p i include_original maxsplit row s) in Hf
      by (lia || assumption).
    congruence.
  - intros rows -> Hrows.
    destruct (split_rows_total E p i include_original maxsplit rows)
      as (outs & Hy & Hl); [lia | exact Hrows |].
    rewrite Hy, of_rows_yields, final_yields, yielded_yields.
    simpl. rewrite app_nil_r. auto.
Qed.

Lemma split_appends_pieces_witness :
  tuple [VStr "3"; VStr "18"; VStr "temp"; VStr "1"]
  = tuple (kept 1 false (pylist [VStr "3"; VStr "tempd1"; VStr "18"])
             ++ re_split PyRe.engine
                  (PyRe.Prog (PyRe.Seq (PyRe.Chr "d") PyRe.Empty) 0)
                  "tempd1" 0).
Proof.
  refine (proj1 (proj2 (proj2 (proj2 (proj2 split_appends_pieces)))
                   PyRe.engine capture_header
                   (of_rows [pylist [VStr "3"; VStr "tempd1"; VStr "18"]])
                   (OVal (VStr "variable")) (OVal (VStr "d"))
                   (Some [VStr "variable"; VStr "day"]) false 0 0
                   (PyRe.Prog (PyRe.Seq (PyRe.Chr "d") PyRe.Empty) 0) 1
                   _ _)
            0%nat (pylist [VStr "3"; VStr "tempd1"; VStr "18"])
            (tuple [VStr "3"; VStr "18"; VStr "temp"; VStr "1"]) "tempd1"
            _ _ _);
    try reflexivity.
  left. reflexivity.
Defined.

(** ** What is yielded is a tuple *)

(** Case analysis on the step a generator body is waiting for. *)
Ltac step_body :=
  match goal with
  | |- context [bind ?r _] =>
      match r with
      | context [bind _ _] => fail 1
      | _ => destruct r eqn:?; simpl
      end
  | |- context [let '(_, _) := ?ab in _] => destruct ab; simpl
  | |- context [if ?b then _ else _] => destruct b eqn:?; simpl
  | |- context [match ?x with OVal _ => _ | OSeq _ => _ end] =>
      destruct x; simpl
  | |- context [match ?x with VNone => _ | VInt _ => _ | VStr _ => _ end] =>
      destruct x; simpl
  end.

(** C10.  Whatever the kind of the sequences the source yields, the header
    and every data row that a traversal of the capture, split or search stage
    yields is a tuple. *)
Theorem stages_yield_tuples (E : ReEngine) (source : traversal)
    (field pattern : pyobj) (newfields : option (list value))
    (include_original : bool) (flags maxsplit : Z)
    (fill : option (list value)) (complement : bool) :
  Forall (fun x => is_tuple x = true)
    (yielded (itercapture E source field pattern newfields include_original
                flags fill))
  /\ Forall (fun x => is_tuple x = true)
       (yielded (itersplit E source field pattern newfields include_original
                   maxsplit flags))
  /\ Forall (fun x => is_tuple x = true)
       (yielded (itersearch E source pattern field flags complement)).
Proof.
  split; [|split].
  - unfold itercapture, run, next.
    repeat step_body; auto;
      constructor; auto; apply for_yield_tuples; apply capture_row_tuple.
  - unfold itersplit, run, next.
    repeat step_body; auto;
      constructor; auto; apply for_yield_tuples; apply split_row_tuple.
  - unfold itersearch, run, next.
    destruct (compile E pattern flags) as [p|]; simpl; auto.
    destruct source; simpl; auto.
    constructor; auto.
    destruct (make_test E p _ field); simpl; auto.
    destruct (negb complement); simpl; apply for_yield_if_tuples.
Qed.

(** ** Capture: the output header *)

(** An integer selector reaches [out_flds.remove(field)] as it was given:
    when the original field is to be dropped, [remove] looks for the integer
    among the field names, does not find it, and raises. *)
Lemma itercapture_by_index_drop (E : ReEngine) (hdr : pyseq) (it : traversal)
    (i : Z) (pattern : pyobj) (newfields : option (list value)) (flags : Z)
    (fill : option (list value)) (p : prog E) :
  compile E pattern flags = Ok p ->
  py_in (OVal (VInt i)) (elems hdr) = false ->
  i < len (elems hdr) ->
  itercapture E (Yield hdr it) (OVal (VInt i)) pattern newfields false flags
    fill
  = Throw ValueError.
Proof.
  intros Hc Hin Hi. unfold itercapture. rewrite Hc. cbn [bind next].
  rewrite Hin. destruct (Z.ltb_spec i (len (elems hdr))); [|lia].
  cbn [bind negb]. unfold remove. simpl in Hin.
  assert (Hr : remove_first (VInt i) (elems hdr) = None).
  { clear - Hin. induction (elems hdr) as [|x l IH]; simpl in *; [reflexivity|].
    apply orb_false_iff in Hin. destruct Hin as [Hx Hl].
    destruct (value_eqb x (VInt i)) eqn:Hxi.
    - apply value_eqb_eq in Hxi. subst x. simpl in Hx.
      rewrite Z.eqb_refl in Hx. discriminate.
    - now rewrite IH. }
  now rewrite Hr.
Qed.

(** C6.  On the docstring's table, capture with the target field given by
    its index 1 and the original field dropped raises ValueError before any
    header is yielded, where the header ('id','value','treat','time') is
    expected.  The same traversal yields that header when the field is given
    by its name, [itersplit] yields it for the index 1, and capture with the
    index 1 yields the full header when the original field is kept. *)
Theorem capture_header_by_index :
  itercapture PyRe.engine (of_rows capture_table) (OVal (VInt 1)) word_digits
    treat_time false 0 None
  = Throw ValueError
  /\ hd_error
       (yielded (itercapture PyRe.engine (of_rows capture_table)
                   (OVal (VStr "variable")) word_digits treat_time false 0
                   None))
     = Some (tuple [VStr "id"; VStr "value"; VStr "treat"; VStr "time"])
  /\ hd_error
       (yielded (itersplit PyRe.engine (of_rows capture_table)
                   (OVal (VInt 1)) word_digits treat_time false 0 0))
     = Some (tuple [VStr "id"; VStr "value"; VStr "treat"; VStr "time"])
  /\ hd_error
       (yielded (itercapture PyRe.engine (of_rows capture_table)
                   (OVal (VInt 1)) word_digits treat_time true 0 None))
     = Some (tuple [VStr "id"; VStr "variable"; VStr "value"; VStr "treat";
                    VStr "time"]).
Proof. repeat split; reflexivity. Qed.

(** ** Search: a selection of one field *)

Definition fruit_header : pyseq := pylist [VStr "foo"; VStr "bar"; VStr "baz"].

Definition orange : pyseq :=
  pylist [VStr "orange"; VInt 12; VStr "oranges are nice fruit"].

Definition dot_g_dot : pyobj := OVal (VStr ".g.").

(** C8.  The pattern [.g.] is found in 'orange', the value of field 'foo' in
    the row.  Searching the field by its name yields the row.  Searching the
    selection ['foo'] does not: the getter built for one index gives the
    value itself, the test runs over its characters, and no single character
    matches; the complement yields the row instead.  On the selection
    ['bar'], whose value is the integer 12, the test raises TypeError. *)
Theorem search_selection_of_one :
  (p <- PyRe.compile ".g." 0 ;; Ok (found PyRe.engine p (str (VStr "orange"))))
  = Ok true
  /\ itersearch PyRe.engine (of_rows [fruit_header; orange]) dot_g_dot
       (OVal (VStr "foo")) 0 false
     = of_rows [retuple fruit_header; retuple orange]
  /\ itersearch PyRe.engine (of_rows [fruit_header; orange]) dot_g_dot
       (OSeq (pylist [VStr "foo"])) 0 false
     = of_rows [retuple fruit_header]
  /\ itersearch PyRe.engine (of_rows [fruit_header; orange]) dot_g_dot
       (OSeq (pylist [VStr "foo"])) 0 true
     = of_rows [retuple fruit_header; retuple orange]
  /\ itersearch PyRe.engine (of_rows [fruit_header; orange]) dot_g_dot
       (OSeq (pylist [VStr "bar"])) 0 false
     = Yield (retuple fruit_header) (Throw TypeError).
Proof. repeat split; reflexivity. Qed.

(** ** Search: header and rows *)

(** The field names as [itersearch] reads them. *)
Definition names (hdr : pyseq) : list value :=
  map (fun f => VStr (str f)) (elems hdr).

Lemma names_of_strings (hdr : pyseq) :
  forallb is_str (elems hdr) = true -> names hdr = elems hdr.
Proof.
  unfold names. induction (elems hdr) as [|v l IH]; simpl; [reflexivity|].
  intro H. apply andb_true_iff in H. destruct H as [Hv Hl].
  rewrite (IH Hl). destruct v; try discriminate. reflexivity.
Qed.

(** The header a traversal yields holds what the header of its source
    holds. *)
Definition header_unchanged (source out : traversal) : Prop :=
  forall h, hd_error (yielded out) = Some h ->
    exists hdr, hd_error (yielded source) = Some hdr /\ elems h = elems hdr.

(** A header with the field name 1, an integer, comes out with the field
    name '1', a string. *)
Lemma search_header_counterexample :
  ~ header_unchanged
      (of_rows [pylist [VInt 1; VStr "bar"]; pylist [VStr "orange"; VInt 12]])
      (itersearch PyRe.engine
         (of_rows [pylist [VInt 1; VStr "bar"];
                   pylist [VStr "orange"; VInt 12]])
         dot_g_dot (OVal VNone) 0 false).
Proof.
  intro H. destruct (H _ eq_refl) as (hdr & Hh & He).
  simpl in Hh. inversion Hh; subst hdr. discriminate He.
Qed.

(** C7, amended.  A traversal of the search stage, with or without
    complement, first yields the source header with every field name replaced
    by its string form, which is the source header itself when all its field
    names are strings; every data row it yields afterwards holds the values
    of a data row of the source, unchanged. *)
Theorem search_header_and_rows (E : ReEngine) (hdr : pyseq) (it : traversal)
    (pattern field : pyobj) (flags : Z) (complement : bool) (p : prog E) :
  compile E pattern flags = Ok p ->
  let out := itersearch E (Yield hdr it) pattern field flags complement in
  hd_error (yielded out) = Some (tuple (names hdr))
  /\ (forallb is_str (elems hdr) = true ->
      hd_error (yielded out) = Some (retuple hdr))
  /\ Forall (fun row => exists r, In r (yielded it) /\ row = retuple r)
       (data_rows out).
Proof.
  intros Hc out. subst out. unfold itersearch. rewrite Hc.
  cbn [bind next run yielded hd_error]. fold (names hdr).
  split; [reflexivity|]. split.
  - intro Hs. now rewrite (names_of_strings hdr Hs).
  - unfold data_rows. cbn [yielded tl].
    destruct (make_test E p (names hdr) field) as [test|e];
      cbn [bind run yielded]; auto.
    destruct (negb complement); cbn [run]; apply for_yield_if_from_source.
Qed.

Lemma search_header_and_rows_witness :
  let out := itersearch PyRe.engine (Yield fruit_header (of_rows [orange]))
               dot_g_dot (OVal VNone) 0 true in
  hd_error (yielded out) = Some (tuple (names fruit_header))
  /\ (forallb is_str (elems fruit_header) = true ->
      hd_error (yielded out) = Some (retuple fruit_header))
  /\ Forall (fun row => exists r,
               In r (yielded (of_rows [orange])) /\ row = retuple r)
       (data_rows out).
Proof.
  eapply (search_header_and_rows PyRe.engine fruit_header (of_rows [orange])
            dot_g_dot (OVal VNone) 0 true).
  reflexivity.
Defined.

(** ** Field selectors that do not resolve *)

(** A traversal that ends with a field-selection error for [selector],
    without having yielded a data row. *)
Definition raises_field_selection_error (selector : pyobj) (t : traversal)
  : Prop :=
  final t = Raised (FieldSelectionError selector) /\ data_rows t = [].

(** Capture on an unknown field name raises the plain exception of
    [itercapture], which is not a field-selection error. *)
Lemma unknown_field_counterexample :
  ~ raises_field_selection_error (OVal (VStr "nope"))
      (itercapture PyRe.engine (of_rows capture_table) (OVal (VStr "nope"))
         word_digits treat_time false 0 None).
Proof. intros [H _]. discriminate H. Qed.

(** A negative index passes the test [field < len(flds)]: split on the last
    field by [-1] yields a header and rows. *)
Lemma negative_index_is_accepted :
  itersplit PyRe.engine (of_rows capture_table) (OVal (VInt (-1)))
    (OVal (VStr "x")) None false 0 0
  = of_rows [tuple [VStr "id"; VStr "variable"];
             tuple [VStr "1"; VStr "A1"; VStr "12"; VStr "12"]].
Proof. reflexivity. Qed.

Lemma index_from_names (i : Z) (hdr : pyseq) :
  forall k, index_from k (VInt i) (names hdr) = None.
Proof.
  unfold names. induction (elems hdr) as [|v l IH]; intro k; simpl; auto.
Qed.

(** C2, amended.  A selector that is neither among the field names nor an
    integer below the length of the header.  Capture and split raise the
    exception 'field invalid: must be either field name or index' before
    yielding anything, header included.  Search yields the header and then,
    before any data row: for a field name that is not among the names in
    string form, ValueError; for an integer, the field-selection error of the
    field resolver, which carries the integer. *)
Theorem unresolved_selector_raises (E : ReEngine) (hdr : pyseq)
    (it : traversal) (field pattern : pyobj) (flags : Z) (p : prog E) :
  compile E pattern flags = Ok p ->
  py_in field (elems hdr) = false ->
  (forall i, field = OVal (VInt i) -> len (elems hdr) <= i) ->
  (forall newfields include_original fill,
      itercapture E (Yield hdr it) field pattern newfields include_original
        flags fill
      = Throw (Exception_ "field invalid: must be either field name or index"))
  /\ (forall newfields include_original maxsplit,
        itersplit E (Yield hdr it) field pattern newfields include_original
          maxsplit flags
        = Throw
            (Exception_ "field invalid: must be either field name or index"))
  /\ (forall s complement,
        field = OVal (VStr s) ->
        py_in field (names hdr) = false ->
        itersearch E (Yield hdr it) pattern field flags complement
        = Yield (tuple (names hdr)) (Throw ValueError))
  /\ (forall i complement,
        field = OVal (VInt i) ->
        itersearch E (Yield hdr it) pattern field flags complement
        = Yield (tuple (names hdr)) (Throw (FieldSelectionError field))).
Proof.
  intros Hc Hin Hint.
  assert (Hres : forall A (a : Z -> result A),
             match field with
             | OVal (VInt i) =>
                 if i <? len (elems hdr) then a i else Raise field_invalid
             | _ => Raise field_invalid
             end = Raise field_invalid).
  { intros A a. destruct field as [[| i |]|]; auto.
    specialize (Hint i eq_refl). destruct (Z.ltb_spec i (len (elems hdr)));
      [lia | reflexivity]. }
  repeat split.
  - intros. unfold itercapture. rewrite Hc. cbn [bind next].
    rewrite Hin, (Hres _ (fun i => Ok i)). reflexivity.
  - intros. unfold itersplit. rewrite Hc. cbn [bind next].
    rewrite Hin.
    rewrite (Hres _ (fun i => f <- getitem (elems hdr) i ;; Ok (i, OVal f))).
    reflexivity.
  - intros s complement -> Hn. unfold itersearch. rewrite Hc.
    cbn [bind next run]. fold (names hdr). f_equal.
    unfold make_test, index. simpl in Hn.
    now rewrite (index_from_none _ _ 0 Hn).
  - intros i complement ->. unfold itersearch. rewrite Hc.
    cbn [bind next run]. fold (names hdr). f_equal.
    unfold make_test, asindices, asindex.
    rewrite index_from_names.
    specialize (Hint i eq_refl).
    assert (Hl : len (names hdr) = len (elems hdr))
      by (unfold len, names; now rewrite length_map).
    rewrite Hl. destruct (Z.ltb_spec i (len (elems hdr))); [lia|].
    now rewrite andb_false_r.
Qed.

Lemma unresolved_selector_raises_witness :
  itercapture PyRe.engine (Yield capture_header Return) (OVal (VStr "nope"))
    word_digits treat_time false 0 None
  = Throw (Exception_ "field invalid: must be either field name or index")
  /\ itersearch PyRe.engine (Yield capture_header Return) word_digits
       (OVal (VStr "nope")) 0 false
     = Yield (tuple (names capture_header)) (Throw ValueError).
Proof.
  pose proof (unresolved_selector_raises PyRe.engine capture_header Return
                (OVal (VStr "nope")) word_digits 0 _ eq_refl eq_refl)
    as H.
  destruct H as (Hcap & _ & Hname & _); [discriminate|].
  split.
  - apply Hcap.
  - now apply (Hname "nope").
Defined.

(** ** Search and its complement *)

(** Calling a function that builds a view, then iterating what it returns. *)
Definition traverse (E : ReEngine) (now : nat) (view : result table)
  : traversal :=
  match view with
  | Ok t => iter E now t
  | Raise e => Throw e
  end.

(** The data rows of [s] and [c] together are the data rows of [source],
    each one once. *)
Definition partition_of (source s c : traversal) : Prop :=
  Permutation (data_rows s ++ data_rows c) (map retuple (data_rows source)).

Definition no_kwargs : kwargs := {| kw_flags := None; kw_complement := None |}.

(** With a field name the header does not have, both traversals stop on
    ValueError after the header: the row is yielded by neither. *)
Lemma search_partition_counterexample :
  ~ partition_of
      (iter PyRe.engine 0 (fixed [fruit_header; orange]))
      (traverse PyRe.engine 0
         (search (fixed [fruit_header; orange])
            [OVal (VStr "nope"); dot_g_dot] no_kwargs))
      (traverse PyRe.engine 0
         (searchcomplement (fixed [fruit_header; orange])
            [OVal (VStr "nope"); dot_g_dot] no_kwargs)).
Proof.
  unfold partition_of. simpl. intro H.
  apply Permutation_nil in H. discriminate H.
Qed.

Lemma filter_partition {A B : Type} (f : A -> B) (keep : A -> bool)
    (l : list A) :
  Permutation
    (map f (filter keep l) ++ map f (filter (fun x => negb (keep x)) l))
    (map f l).
Proof.
  induction l as [|x l IH]; simpl; [constructor|].
  destruct (keep x); simpl.
  - now constructor.
  - apply Permutation_sym, Permutation_cons_app, Permutation_sym, IH.
Qed.

(** The two loops of [itersearch] over one source: when the first runs to
    its end so does the second, and they share out the rows by the test. *)
Lemma itersearch_both (E : ReEngine) (table : traversal)
    (pattern field : pyobj) (flags : Z) :
  final (itersearch E table pattern field flags false) = Done ->
  final (itersearch E table pattern field flags true) = Done
  /\ hd_error (yielded (itersearch E table pattern field flags true))
     = hd_error (yielded (itersearch E table pattern field flags false))
  /\ exists test : pyseq -> bool,
       data_rows (itersearch E table pattern field flags false)
       = map retuple (filter test (data_rows table))
       /\ data_rows (itersearch E table pattern field flags true)
          = map retuple (filter (fun r => negb (test r)) (data_rows table)).
Proof.
  unfold itersearch.
  destruct (compile E pattern flags) as [p|e]; [|discriminate].
  destruct table as [hdr it| |e]; [|discriminate|discriminate].
  cbn [bind next run final yielded hd_error]. fold (names hdr).
  destruct (make_test E p (names hdr) field) as [test|e]; [|discriminate].
  cbn [bind run negb]. unfold data_rows. cbn [yielded tl].
  intro Hd. destruct (for_yield_if_done _ _ Hd) as (Hit & Hall & Hy).
  destruct (not_test_done test it Hit Hall) as (Hd' & Hy').
  split; [exact Hd'|]. split; [reflexivity|].
  exists (holds test). now rewrite Hy, Hy'.
Qed.

(** C4, amended.  [searchcomplement] is [search] with [complement] set to
    true.  For every table, arguments and flags for which the traversal of
    the search runs to its end without raising, so does the traversal of the
    complement; both yield the same header; and there is a test on rows such
    that the search yields, in source order, the source rows that pass it and
    the complement those that fail it.  Their data rows together are
    therefore the source's data rows, each one once. *)
Theorem search_and_complement (E : ReEngine) (now : nat) (t : table)
    (args : list pyobj) (kw : kwargs) :
  kw_complement kw = None ->
  final (traverse E now (search t args kw)) = Done ->
  let s := traverse E now (search t args kw) in
  let c := traverse E now (searchcomplement t args kw) in
  searchcomplement t args kw
  = search t args {| kw_flags := kw_flags kw; kw_complement := Some true |}
  /\ final c = Done
  /\ hd_error (yielded c) = hd_error (yielded s)
  /\ (exists test : pyseq -> bool,
        data_rows s = map retuple (filter test (data_rows (iter E now t)))
        /\ data_rows c
           = map retuple
               (filter (fun r => negb (test r)) (data_rows (iter E now t))))
  /\ partition_of (iter E now t) s c.
Proof.
  intros Hkw Hd s c. subst s c. unfold searchcomplement. rewrite Hkw.
  split; [reflexivity|].
  unfold partition_of. revert Hd. unfold search. rewrite Hkw.
  destruct args as [|a [|b [|x args]]]; try discriminate;
    cbn [traverse iter sv_table sv_pattern sv_field sv_flags sv_complement
         default kw_flags kw_complement];
    intro Hd;
    destruct (itersearch_both E _ _ _ _ Hd) as (Hc & Hh & test & Hs & Hcs);
    (split; [exact Hc|]); (split; [exact Hh|]);
    (split; [exists test; now split|]);
    rewrite Hs, Hcs; apply filter_partition.
Qed.

Lemma search_and_complement_witness :
  let t := fixed [fruit_header; orange;
                  pylist [VStr "banana"; VInt 74; VStr "lovely too"]] in
  let s := traverse PyRe.engine 0 (search t [dot_g_dot] no_kwargs) in
  let c := traverse PyRe.engine 0 (searchcomplement t [dot_g_dot] no_kwargs) in
  searchcomplement t [dot_g_dot] no_kwargs
  = search t [dot_g_dot] {| kw_flags := None; kw_complement := Some true |}
  /\ final c = Done
  /\ hd_error (yielded c) = hd_error (yielded s)
  /\ (exists test : pyseq -> bool,
        data_rows s
        = map retuple (filter test (data_rows (iter PyRe.engine 0 t)))
        /\ data_rows c
           = map retuple
               (filter (fun r => negb (test r))
                  (data_rows (iter PyRe.engine 0 t))))
  /\ partition_of (iter PyRe.engine 0 t) s c.
Proof.
  apply (search_and_complement PyRe.engine 0
           (fixed [fruit_header; orange;
                   pylist [VStr "banana"; VInt 74; VStr "lovely too"]])
           [dot_g_dot] no_kwargs); reflexivity.
Defined.

(** ** Traversing a view again *)

(** On sequences, views of any nesting depth: a view over a deterministic
    table yields the same sequence, and ends the same way, whenever it is
    traversed; each traversal of a view is the stage's generator run on a
    traversal of the source started at the same moment.  What a traversal
    does to the objects it handles is the matter of [Store], below. *)
Theorem traversals_repeat (E : ReEngine) (t : table) :
  deterministic t ->
  (forall i j : nat, iter E i t = iter E j t)
  /\ (forall (now : nat) (v : CaptureView table),
        iter E now (OfCapture v)
        = itercapture E (iter E now (cv_source v)) (cv_field v) (cv_pattern v)
            (cv_newfields v) (cv_include_original v) (cv_flags v) (cv_fill v))
  /\ (forall (now : nat) (v : SplitView table),
        iter E now (OfSplit v)
        = itersplit E (iter E now (sp_source v)) (sp_field v) (sp_pattern v)
            (sp_newfields v) (sp_include_original v) (sp_maxsplit v)
            (sp_flags v))
  /\ (forall (now : nat) (v : SearchView table),
        iter E now (OfSearch v)
        = itersearch E (iter E now (sv_table v)) (sv_pattern v) (sv_field v)
            (sv_flags v) (sv_complement v)).
Proof.
  intro Hdet. split; [|repeat split].
  intros i j. revert t Hdet.
  fix IH 1. intros [content|[src f pt nf io fl fi]|[src f pt nf io ms fl]
                    |[src pt f fl cm]] Hdet; simpl in *.
  - now rewrite (Hdet i j).
  - now rewrite (IH src Hdet).
  - now rewrite (IH src Hdet).
  - now rewrite (IH src Hdet).
Qed.

Lemma traversals_repeat_witness :
  iter PyRe.engine 0
    (capture (fixed capture_table) (OVal (VStr "variable")) word_digits
       treat_time false 0 None)
  = iter PyRe.engine 1
      (capture (fixed capture_table) (OVal (VStr "variable")) word_digits
         treat_time false 0 None).
Proof.
  apply (proj1 (traversals_repeat PyRe.engine
                  (capture (fixed capture_table) (OVal (VStr "variable"))
                     word_digits treat_time false 0 None)
                  (fun _ _ => eq_refl))).
Defined.

(** * Further properties of the stages *)

(** ** Rows come out in source order, up to the first failure *)

(** A loop [for row in it: yield f(row)] yields the images of the first [k]
    rows of its source, in order.  Either these are all the rows and the loop
    ends as the source ends, or row [k] is the first that [f] fails on and
    the loop ends with that exception. *)
Lemma for_yield_prefix (f : pyseq -> result pyseq) (it : traversal) :
  exists k : nat,
    (k <= List.length (yielded it))%nat
    /\ Forall2 (fun r o => f r = Ok o) (firstn k (yielded it))
         (yielded (for_yield f it))
    /\ ((k = List.length (yielded it) /\ final (for_yield f it) = final it)
        \/ exists r e, nth_error (yielded it) k = Some r /\ f r = Raise e
                       /\ final (for_yield f it) = Raised e).
Proof.
  induction it as [row rest (k & Hk & Himg & Hend)| |e]; simpl.
  - destruct (f row) as [o|e] eqn:Hf; simpl.
    + exists (S k). simpl. split; [lia|]. split; [now constructor|].
      destruct Hend as [[-> Hfin]|(r & e & Hr & Hfr & Hfin)].
      * left. auto.
      * right. exists r, e. auto.
    + exists 0%nat. simpl. split; [lia|]. split; [constructor|].
      right. exists row, e. auto.
  - exists 0%nat. simpl. split; [lia|]. split; [constructor|]. left. auto.
  - exists 0%nat. simpl. split; [lia|]. split; [constructor|]. left. auto.
Qed.

(** X1.  A traversal of the capture stage that got past its header yields,
    in source order, the images of the first [k] data rows of the source and
    nothing else.  Either all rows were transformed and the traversal ends as
    the source does (normally, or with the source's own exception), or the
    loop body failed on row [k] and the traversal ends there with that
    exception: no row is skipped, reordered or yielded after a failure. *)
Theorem capture_rows_in_order (E : ReEngine) (hdr : pyseq) (it : traversal)
    (field pattern : pyobj) (newfields : option (list value))
    (include_original : bool) (flags : Z) (fill : option (list value))
    (p : prog E) (i : Z) :
  compile E pattern flags = Ok p ->
  capture_selects field hdr include_original i ->
  let out := itercapture E (Yield hdr it) field pattern newfields
               include_original flags fill in
  let body := capture_row E p pattern i include_original fill in
  exists k : nat,
    (k <= List.length (yielded it))%nat
    /\ Forall2 (fun r o => body r = Ok o) (firstn k (yielded it))
         (data_rows out)
    /\ ((k = List.length (yielded it) /\ final out = final it)
        \/ exists r e, nth_error (yielded it) k = Some r /\ body r = Raise e
                       /\ final out = Raised e).
Proof.
  intros Hc Hi out body. subst out body.
  rewrite (itercapture_selected E _ _ _ _ _ _ _ _ p i Hc Hi).
  unfold data_rows. cbn [yielded tl final]. apply for_yield_prefix.
Qed.

Lemma capture_rows_in_order_witness :
  let it := of_rows [pylist [VStr "1"; VStr "A1"; VStr "12"];
                     pylist [VStr "2"; VStr "??"; VStr "15"];
                     pylist [VStr "3"; VStr "B1"; VStr "18"]] in
  let out := itercapture PyRe.engine (Yield capture_header it)
               (OVal (VStr "variable")) word_digits treat_time false 0 None in
  let body := capture_row PyRe.engine
                (PyRe.Prog
                   (PyRe.Seq
                      (PyRe.Group 1
                         (PyRe.Seq (PyRe.Class false PyRe.Word) PyRe.Empty))
                      (PyRe.Seq
                         (PyRe.Group 2
                            (PyRe.Seq (PyRe.Plus (PyRe.Class false PyRe.Digit))
                               PyRe.Empty))
                         PyRe.Empty)) 2)
                word_digits 1 false None in
  exists k : nat,
    (k <= List.length (yielded it))%nat
    /\ Forall2 (fun r o => body r = Ok o) (firstn k (yielded it))
         (data_rows out)
    /\ ((k = List.length (yielded it) /\ final out = final it)
        \/ exists r e, nth_error (yielded it) k = Some r /\ body r = Raise e
                       /\ final out = Raised e).
Proof.
  apply (capture_rows_in_order PyRe.engine capture_header
           (of_rows [pylist [VStr "1"; VStr "A1"; VStr "12"];
                     pylist [VStr "2"; VStr "??"; VStr "15"];
                     pylist [VStr "3"; VStr "B1"; VStr "18"]])
           (OVal (VStr "variable")) word_digits treat_time false 0 None).
  - reflexivity.
  - left. reflexivity.
Defined.

(** X2.  The same for the split stage: the data rows yielded are the images
    of a prefix of the source rows, in order, and the traversal ends as the
    source does or with the exception of the first row the loop body fails
    on. *)
Theorem split_rows_in_order (E : ReEngine) (hdr : pyseq) (it : traversal)
    (field pattern : pyobj) (newfields : option (list value))
    (include_original : bool) (maxsplit flags : Z) (p : prog E) (i : Z) :
  compile E pattern flags = Ok p ->
  split_selects field hdr i ->
  let out := itersplit E (Yield hdr it) field pattern newfields
               include_original maxsplit flags in
  let body := split_row E p i include_original maxsplit in
  exists k : nat,
    (k <= List.length (yielded it))%nat
    /\ Forall2 (fun r o => body r = Ok o) (firstn k (yielded it))
         (data_rows out)
    /\ ((k = List.length (yielded it) /\ final out = final it)
        \/ exists r e, nth_error (yielded it) k = Some r /\ body r = Raise e
                       /\ final out = Raised e).
Proof.
  intros Hc Hi out body. subst out body.
  destruct (itersplit_selected E hdr it field pattern newfields
              include_original maxsplit flags p i Hc Hi) as (header & ->).
  unfold data_rows. cbn [yielded tl final]. apply for_yield_prefix.
Qed.

Lemma split_rows_in_order_witness :
  let it := Yield (pylist [VStr "1"; VStr "parad1"; VStr "12"])
              (Yield (pylist [VStr "2"; VInt 7; VStr "15"]) Return) in
  let out := itersplit PyRe.engine (Yield capture_header it)
               (OVal (VInt 1)) (OVal (VStr "d")) None true 0 0 in
  let body := split_row PyRe.engine
                (PyRe.Prog (PyRe.Seq (PyRe.Chr "d") PyRe.Empty) 0) 1 true 0 in
  exists k : nat,
    (k <= List.length (yielded it))%nat
    /\ Forall2 (fun r o => body r = Ok o) (firstn k (yielded it))
         (data_rows out)
    /\ ((k = List.length (yielded it) /\ final out = final it)
        \/ exists r e, nth_error (yielded it) k = Some r /\ body r = Raise e
                       /\ final out = Raised e).
Proof.
  apply (split_rows_in_order PyRe.engine capture_header
           (Yield (pylist [VStr "1"; VStr "parad1"; VStr "12"])
              (Yield (pylist [VStr "2"; VInt 7; VStr "15"]) Return))
           (OVal (VInt 1)) (OVal (VStr "d")) None true 0 0).
  - reflexivity.
  - right. repeat split; reflexivity || lia.
Defined.

(** ** Capture with a fill never stops on a value *)

Lemma for_yield_total (f : pyseq -> result pyseq) (it : traversal) :
  Forall (fun r => exists o, f r = Ok o) (yielded it) ->
  final (for_yield f it) = final it
  /\ List.length (yielded (for_yield f it)) = List.length (yielded it).
Proof.
  induction it as [row rest IH| |e]; simpl; intro H; auto.
  inversion H as [|? ? [o Ho] Hrest]; subst.
  rewrite Ho. simpl. destruct (IH Hrest) as [Hf Hl]. auto.
Qed.

(** X3.  With a fill sequence configured, capture over rows whose target
    values are strings yields exactly one row per source row and ends as the
    source ends: a value that does not match is never an error. *)
Theorem capture_with_fill_total (E : ReEngine) (hdr : pyseq) (it : traversal)
    (field pattern : pyobj) (newfields : option (list value))
    (include_original : bool) (flags : Z) (f : list value) (p : prog E)
    (i : Z) :
  compile E pattern flags = Ok p ->
  capture_selects field hdr include_original i ->
  Forall (fun r => exists s, getitem (elems r) i = Ok (VStr s)) (yielded it) ->
  let out := itercapture E (Yield hdr it) field pattern newfields
               include_original flags (Some f) in
  final out = final it
  /\ List.length (data_rows out) = List.length (yielded it).
Proof.
  intros Hc Hi Hrows out. subst out.
  rewrite (itercapture_selected E _ _ _ _ _ _ _ _ p i Hc Hi).
  unfold data_rows. cbn [yielded tl final]. apply for_yield_total.
  eapply Forall_impl; [|exact Hrows]. intros r [s Hs].
  rewrite (capture_row_string E p pattern i include_original (Some f) r s)
    by eauto using capture_selects_position.
  destruct (re_search E p s); eauto.
Qed.

Lemma capture_with_fill_total_witness :
  let it := of_rows [pylist [VStr "1"; VStr "A1"; VStr "12"];
                     pylist [VStr "2"; VStr "??"; VStr "15"]] in
  let out := itercapture PyRe.engine (Yield capture_header it)
               (OVal (VStr "variable")) word_digits treat_time false 0
               (Some [VNone; VNone]) in
  final out = final it
  /\ List.length (data_rows out) = List.length (yielded it).
Proof.
  eapply (capture_with_fill_total PyRe.engine capture_header
            (of_rows [pylist [VStr "1"; VStr "A1"; VStr "12"];
                      pylist [VStr "2"; VStr "??"; VStr "15"]])
            (OVal (VStr "variable")) word_digits treat_time false 0
            [VNone; VNone] _ 1).
  - reflexivity.
  - left. reflexivity.
  - repeat constructor; eexists; reflexivity.
Defined.

(** ** The header, by name and by index *)

Lemma index_from_first (v : value) (l : list value) :
  forall k j, index_from k v l = Some j ->
    ~ In v (firstn (Z.to_nat (j - k)) l).
Proof.
  induction l as [|x l IH]; intros k j H; simpl in H; [discriminate|].
  destruct (value_eqb x v) eqn:Hx.
  - inversion H; subst j. rewrite Z.sub_diag. simpl. tauto.
  - pose proof (index_from_spec _ _ _ _ H) as (Hr & _).
    apply IH in H.
    replace (Z.to_nat (j - k)) with (S (Z.to_nat (j - (k + 1)))) by lia.
    simpl. intros [->|Hin]; [|tauto].
    assert (Hv : value_eqb v v = true) by now apply value_eqb_eq.
    congruence.
Qed.

(** X4.  For a field given by a name of the header, capture and split yield
    the same header: the source header without position [i] (unless the
    original field is kept) followed by the new field names, where [i] is the
    first position holding the name.  It is the position the loops take the
    target value from and drop from each row, so header and rows stay
    aligned, also when the name occurs more than once. *)
Theorem header_by_name (E : ReEngine) (hdr : pyseq) (it : traversal)
    (name : value) (pattern : pyobj) (newfields : option (list value))
    (include_original : bool) (flags maxsplit : Z)
    (fill : option (list value)) (p : prog E) (i : Z) :
  compile E pattern flags = Ok p ->
  index (elems hdr) (OVal name) = Ok i ->
  let header := tuple (kept i include_original hdr ++ default [] newfields) in
  itercapture E (Yield hdr it) (OVal name) pattern newfields include_original
    flags fill
  = Yield header (for_yield (capture_row E p pattern i include_original fill) it)
  /\ itersplit E (Yield hdr it) (OVal name) pattern newfields
       include_original maxsplit flags
     = Yield header (for_yield (split_row E p i include_original maxsplit) it)
  /\ nth_error (elems hdr) (Z.to_nat i) = Some name
  /\ ~ In name (firstn (Z.to_nat i) (elems hdr)).
Proof.
  intros Hc Hi header. subst header.
  split; [now apply itercapture_by_name|].
  split; [now apply itersplit_by_name|].
  unfold index in Hi.
  destruct (index_from 0 name (elems hdr)) as [j|] eqn:Hj; [|discriminate].
  inversion Hi; subst j.
  pose proof (index_from_spec _ _ _ _ Hj) as (_ & Hn & _).
  pose proof (index_from_first _ _ _ _ Hj) as Hfirst.
  rewrite Z.sub_0_r in *. auto.
Qed.

Lemma header_by_name_witness :
  let hdr := pylist [VStr "id"; VStr "k"; VStr "v"; VStr "k"] in
  let header := tuple (kept 1 false hdr ++ default [] treat_time) in
  itercapture PyRe.engine (Yield hdr Return) (OVal (VStr "k")) word_digits
    treat_time false 0 None
  = Yield header
      (for_yield
         (capture_row PyRe.engine
            (PyRe.Prog
               (PyRe.Seq
                  (PyRe.Group 1
                     (PyRe.Seq (PyRe.Class false PyRe.Word) PyRe.Empty))
                  (PyRe.Seq
                     (PyRe.Group 2
                        (PyRe.Seq (PyRe.Plus (PyRe.Class false PyRe.Digit))
                           PyRe.Empty))
                     PyRe.Empty)) 2)
            word_digits 1 false None) Return)
  /\ header = tuple [VStr "id"; VStr "v"; VStr "k"; VStr "treat"; VStr "time"].
Proof.
  split; [|reflexivity].
  apply (header_by_name PyRe.engine
           (pylist [VStr "id"; VStr "k"; VStr "v"; VStr "k"]) Return
           (VStr "k") word_digits treat_time false 0 0 None); reflexivity.
Defined.

(** X5.  Capture with the field given as an integer below the length of
    the header (and not itself a field name).  If the original field is to be
    dropped the traversal raises ValueError before it yields anything: the
    integer is looked for among the field names.  If it is kept, the header
    is the source header followed by the new field names and the loop runs
    at that position. *)
Theorem capture_by_index (E : ReEngine) (hdr : pyseq) (it : traversal)
    (i : Z) (pattern : pyobj) (newfields : option (list value)) (flags : Z)
    (fill : option (list value)) (p : prog E) :
  compile E pattern flags = Ok p ->
  py_in (OVal (VInt i)) (elems hdr) = false ->
  i < len (elems hdr) ->
  itercapture E (Yield hdr it) (OVal (VInt i)) pattern newfields false flags
    fill
  = Throw ValueError
  /\ itercapture E (Yield hdr it) (OVal (VInt i)) pattern newfields true flags
       fill
     = Yield (tuple (elems hdr ++ default [] newfields))
         (for_yield (capture_row E p pattern i true fill) it).
Proof.
  intros Hc Hin Hi. split.
  - now apply (itercapture_by_index_drop E hdr it i pattern newfields flags
                 fill p).
  - apply (itercapture_selected E hdr it (OVal (VInt i)) pattern newfields
             true flags fill p i Hc).
    right. auto.
Qed.

Lemma capture_by_index_witness :
  itercapture PyRe.engine
    (Yield capture_header (of_rows [pylist [VStr "1"; VStr "A1"; VStr "12"]]))
    (OVal (VInt 1)) word_digits None false 0 (Some [VNone; VNone])
  = Throw ValueError
  /\ itercapture PyRe.engine
       (Yield capture_header
          (of_rows [pylist [VStr "1"; VStr "A1"; VStr "12"]]))
       (OVal (VInt 1)) word_digits None true 0 (Some [VNone; VNone])
     = of_rows [tuple [VStr "id"; VStr "variable"; VStr "value"];
                tuple [VStr "1"; VStr "A1"; VStr "12"; VStr "A"; VStr "1"]].
Proof.
  apply (capture_by_index PyRe.engine capture_header
           (of_rows [pylist [VStr "1"; VStr "A1"; VStr "12"]]) 1 word_digits
           None 0 (Some [VNone; VNone])
           (PyRe.Prog
              (PyRe.Seq
                 (PyRe.Group 1
                    (PyRe.Seq (PyRe.Class false PyRe.Word) PyRe.Empty))
                 (PyRe.Seq
                    (PyRe.Group 2
                       (PyRe.Seq (PyRe.Plus (PyRe.Class false PyRe.Digit))
                          PyRe.Empty))
                    PyRe.Empty)) 2)).
  - reflexivity.
  - reflexivity.
  - reflexivity.
Defined.

Lemma remove_first_distinct (l : list value) :
  NoDup l ->
  forall n v, nth_error l n = Some v ->
    remove_first v l = Some (firstn n l ++ skipn (S n) l)
    /\ forall k, index_from k v l = Some (k + Z.of_nat n).
Proof.
  induction 1 as [|x l Hx Hnd IH]; intros n v Hn.
  - destruct n; discriminate.
  - destruct n as [|n]; simpl in Hn.
    + inversion Hn; subst x. simpl.
      assert (Hv : value_eqb v v = true) by now apply value_eqb_eq.
      rewrite Hv. split; [reflexivity|]. intro k. f_equal. lia.
    + destruct (IH n v Hn) as [Hr Hi]. simpl.
      destruct (value_eqb x v) eqn:Hxv.
      * apply value_eqb_eq in Hxv. subst x.
        exfalso. apply Hx. eapply nth_error_In; eauto.
      * rewrite Hr. split; [reflexivity|]. intro k. rewrite Hi. f_equal. lia.
Qed.

(** X6.  When the field names are pairwise distinct, split by a position [i]
    of the header (an integer that is not itself a field name) is the same
    traversal as split by the name found at [i]: the header without position
    [i] (unless kept) followed by the new field names, and the loop over the
    rows at position [i]. *)
Theorem split_by_index_distinct (E : ReEngine) (hdr : pyseq) (it : traversal)
    (i : Z) (pattern : pyobj) (newfields : option (list value))
    (include_original : bool) (maxsplit flags : Z) (p : prog E) :
  compile E pattern flags = Ok p ->
  py_in (OVal (VInt i)) (elems hdr) = false ->
  0 <= i < len (elems hdr) ->
  NoDup (elems hdr) ->
  itersplit E (Yield hdr it) (OVal (VInt i)) pattern newfields
    include_original maxsplit flags
  = Yield (tuple (kept i include_original hdr ++ default [] newfields))
      (for_yield (split_row E p i include_original maxsplit) it)
  /\ exists name,
       nth_error (elems hdr) (Z.to_nat i) = Some name
       /\ itersplit E (Yield hdr it) (OVal name) pattern newfields
            include_original maxsplit flags
          = itersplit E (Yield hdr it) (OVal (VInt i)) pattern newfields
              include_original maxsplit flags.
Proof.
  intros Hc Hin Hr Hnd.
  destruct (getitem_in_range _ _ Hr) as (name & Hg & _).
  pose proof (getitem_nth _ _ _ (proj1 Hr) Hg) as Hn.
  destruct (remove_first_distinct _ Hnd _ _ Hn) as [Hrm Hidx].
  assert (Hbyidx :
    itersplit E (Yield hdr it) (OVal (VInt i)) pattern newfields
      include_original maxsplit flags
    = Yield (tuple (kept i include_original hdr ++ default [] newfields))
        (for_yield (split_row E p i include_original maxsplit) it)).
  { unfold itersplit. rewrite Hc. cbn [bind next]. rewrite Hin.
    destruct (Z.ltb_spec i (len (elems hdr))); [|lia].
    rewrite Hg. cbn [bind]. unfold kept.
    destruct include_original; cbn [negb bind run].
    - now rewrite extend_if_app.
    - unfold remove. rewrite Hrm. cbn [bind run].
      now rewrite extend_if_app. }
  split; [exact Hbyidx|]. exists name. split; [exact Hn|].
  rewrite Hbyidx. apply itersplit_by_name; [exact Hc|].
  unfold index. rewrite (Hidx 0). f_equal. lia.
Qed.

Lemma split_by_index_distinct_witness :
  itersplit PyRe.engine (of_rows capture_table) (OVal (VInt 1))
    (OVal (VStr "\d")) None false 0 0
  = of_rows [tuple [VStr "id"; VStr "value"];
             tuple [VStr "1"; VStr "12"; VStr "A"; VStr ""]]
  /\ itersplit PyRe.engine (of_rows capture_table) (OVal (VStr "variable"))
       (OVal (VStr "\d")) None false 0 0
     = itersplit PyRe.engine (of_rows capture_table) (OVal (VInt 1))
         (OVal (VStr "\d")) None false 0 0.
Proof.
  destruct (split_by_index_distinct PyRe.engine capture_header
              (of_rows [pylist [VStr "1"; VStr "A1"; VStr "12"]]) 1
              (OVal (VStr "\d")) None false 0 0
              (PyRe.Prog
                 (PyRe.Seq (PyRe.Class false PyRe.Digit) PyRe.Empty) 0))
    as (Hidx & name & Hname & Hsame).
  - reflexivity.
  - reflexivity.
  - unfold len. simpl. lia.
  - repeat constructor; simpl; intuition discriminate.
  - split; [reflexivity|].
    simpl in Hname. inversion Hname; subst name. exact Hsame.
Defined.

(** ** Negative indices *)

Lemma drop_index_negative (l : list value) :
  forall i k, k < i -> drop_index_from i k l = l.
Proof.
  induction l as [|x l IH]; intros i k Hk; simpl; [reflexivity|].
  destruct (Z.eqb_spec i k); [lia|]. f_equal. apply IH. lia.
Qed.

(** X7.  With a negative position the loops of capture and split take the
    target value from the end of the row, Python's way (IndexError when the
    position is before the start of the row), but drop nothing: the
    comprehension compares the position with indices counted from 0, so every
    value of the row is kept whether the original field was to be dropped or
    not. *)
Theorem negative_position_drops_nothing (E : ReEngine) (p : prog E)
    (pattern : pyobj) (i maxsplit : Z) (fill : option (list value))
    (row : pyseq) :
  i < 0 ->
  capture_row E p pattern i false fill row
  = capture_row E p pattern i true fill row
  /\ split_row E p i false maxsplit row = split_row E p i true maxsplit row
  /\ (- len (elems row) <= i ->
      getitem (elems row) i = getitem (elems row) (i + len (elems row)))
  /\ (i < - len (elems row) -> getitem (elems row) i = Raise IndexError).
Proof.
  intro Hi. unfold capture_row, split_row, drop_index.
  rewrite (drop_index_negative (elems row) 0 i Hi).
  split; [reflexivity|]. split; [reflexivity|].
  unfold getitem. cbv zeta.
  destruct (Z.ltb_spec i 0); [|lia]. split; intro Hr.
  - destruct (Z.ltb_spec (i + len (elems row)) 0); [lia|reflexivity].
  - destruct (Z.leb_spec 0 (i + len (elems row))); [lia|reflexivity].
Qed.

Lemma negative_position_drops_nothing_witness :
  split_row PyRe.engine (PyRe.Prog (PyRe.Seq (PyRe.Chr "d") PyRe.Empty) 0)
    (-2) false 0 (pylist [VStr "1"; VStr "parad1"; VStr "12"])
  = Ok (tuple [VStr "1"; VStr "parad1"; VStr "12"; VStr "para"; VStr "1"]).
Proof.
  rewrite (proj1 (proj2 (negative_position_drops_nothing PyRe.engine
                           (PyRe.Prog (PyRe.Seq (PyRe.Chr "d") PyRe.Empty) 0)
                           (OVal VNone) (-2) 0 None
                           (pylist [VStr "1"; VStr "parad1"; VStr "12"])
                           eq_refl))).
  reflexivity.
Defined.

(** ** The width of a captured row *)

Lemma without_length (i : Z) (l : list value) :
  0 <= i < len l -> len (without i l) = len l - 1.
Proof.
  unfold len, without. intro Hi.
  rewrite length_app, length_firstn, length_skipn. lia.
Qed.

Lemma getitem_ok_range (l : list value) (i : Z) (v : value) :
  0 <= i -> getitem l i = Ok v -> i < len l.
Proof.
  intros Hi. unfold getitem. cbv zeta.
  destruct (Z.ltb_spec i 0); [lia|].
  destruct (Z.leb_spec 0 i); [|lia].
  destruct (Z.ltb_spec i (len l)); [auto|discriminate].
Qed.

(** X8.  A row that the loop of capture yields, for a position counted from
    0: the target value was a string; what follows the kept part of the
    source row is the groups of the match or, failing a match, the fill; and
    the row is as long as the source row, less one when the original field is
    dropped, plus the number of values appended, whatever the number of new
    field names. *)
Theorem captured_row_width (E : ReEngine) (p : prog E) (pattern : pyobj)
    (i : Z) (include_original : bool) (fill : option (list value))
    (row out : pyseq) :
  0 <= i ->
  capture_row E p pattern i include_original fill row = Ok out ->
  exists (s : string) (appended : list value),
    getitem (elems row) i = Ok (VStr s)
    /\ (re_search E p s = Some appended
        \/ (re_search E p s = None /\ fill = Some appended))
    /\ out = tuple (kept i include_original row ++ appended)
    /\ len (elems out)
       = len (elems row) - (if include_original then 0 else 1) + len appended.
Proof.
  intros Hi Hout.
  destruct (getitem (elems row) i) as [v|e] eqn:Hv;
    [|unfold capture_row in Hout; rewrite Hv in Hout; discriminate].
  destruct v as [| z |s];
    try (unfold capture_row in Hout; rewrite Hv in Hout; discriminate).
  pose proof (getitem_ok_range _ _ _ Hi Hv) as Hlt.
  rewrite (capture_row_string E p pattern i include_original fill row s)
    in Hout by auto.
  assert (Hw : forall a,
             len (elems (tuple (kept i include_original row ++ a)))
             = len (elems row) - (if include_original then 0 else 1) + len a).
  { intro a. cbn [elems tuple]. unfold kept.
    destruct include_original.
    - unfold len. rewrite length_app. lia.
    - pose proof (without_length i (elems row) (conj Hi Hlt)) as Hwl.
      unfold len in *. rewrite length_app. lia. }
  exists s. destruct (re_search E p s) as [g|] eqn:Hm.
  - exists g. inversion Hout; subst out. auto.
  - destruct fill as [f|]; [|discriminate].
    exists f. inversion Hout; subst out. auto 6.
Qed.

Lemma captured_row_width_witness :
  exists (s : string) (appended : list value),
    getitem (elems (pylist [VStr "4"; VStr "C12"; VStr "19"])) 1 = Ok (VStr s)
    /\ (re_search PyRe.engine
          (PyRe.Prog
             (PyRe.Seq
                (PyRe.Group 1
                   (PyRe.Seq (PyRe.Class false PyRe.Word) PyRe.Empty))
                (PyRe.Seq
                   (PyRe.Group 2
                      (PyRe.Seq (PyRe.Plus (PyRe.Class false PyRe.Digit))
                         PyRe.Empty))
                   PyRe.Empty)) 2) s = Some appended
        \/ (re_search PyRe.engine
              (PyRe.Prog
                 (PyRe.Seq
                    (PyRe.Group 1
                       (PyRe.Seq (PyRe.Class false PyRe.Word) PyRe.Empty))
                    (PyRe.Seq
                       (PyRe.Group 2
                          (PyRe.Seq (PyRe.Plus (PyRe.Class false PyRe.Digit))
                             PyRe.Empty))
                       PyRe.Empty)) 2) s = None
            /\ None = Some appended))
    /\ tuple [VStr "4"; VStr "19"; VStr "C"; VStr "12"]
       = tuple (kept 1 false (pylist [VStr "4"; VStr "C12"; VStr "19"])
                  ++ appended)
    /\ len (elems (tuple [VStr "4"; VStr "19"; VStr "C"; VStr "12"]))
       = len (elems (pylist [VStr "4"; VStr "C12"; VStr "19"])) - 1
         + len appended.
Proof.
  apply (captured_row_width PyRe.engine _ word_digits 1 false None
           (pylist [VStr "4"; VStr "C12"; VStr "19"])
           (tuple [VStr "4"; VStr "19"; VStr "C"; VStr "12"])).
  - lia.
  - reflexivity.
Defined.

(** ** Search as a filter *)

(** Keep the rows that pass [keep], as tuples; end as the source ends. *)
Fixpoint select (keep : pyseq -> bool) (it : traversal) : traversal :=
  match it with
  | Yield r k =>
      if keep r then Yield (retuple r) (select keep k) else select keep k
  | Return => Return
  | Throw e => Throw e
  end.

Lemma yielded_select (keep : pyseq -> bool) (it : traversal) :
  yielded (select keep it) = map retuple (filter keep (yielded it)).
Proof.
  induction it as [r k IH| |e]; simpl; auto.
  destruct (keep r); simpl; now rewrite IH.
Qed.

Lemma final_select (keep : pyseq -> bool) (it : traversal) :
  final (select keep it) = final it.
Proof.
  induction it as [r k IH| |e]; simpl; auto. now destruct (keep r).
Qed.

(** A filtering loop whose test answers [keep] on the first rows of its
    source keeps those that pass, then goes on with the rest. *)
Lemma for_yield_if_yields (cond : pyseq -> result bool) (keep : pyseq -> bool)
    (rest : traversal) :
  forall before,
    Forall (fun r => cond r = Ok (keep r)) before ->
    for_yield_if cond (yields before rest)
    = yields (map retuple (filter keep before)) (for_yield_if cond rest).
Proof.
  induction 1 as [|r before Hr _ IH]; simpl; [reflexivity|].
  rewrite Hr. destruct (keep r); simpl; now rewrite IH.
Qed.

Lemma for_yield_if_select (cond : pyseq -> result bool)
    (keep : pyseq -> bool) (it : traversal) :
  Forall (fun r => cond r = Ok (keep r)) (yielded it) ->
  for_yield_if cond it = select keep it.
Proof.
  induction it as [r k IH| |e]; simpl; intro H; auto.
  inversion H as [|? ? Hr Hk]; subst. rewrite Hr.
  destruct (keep r); now rewrite (IH Hk).
Qed.

Lemma not_test_ok (test : pyseq -> result bool) (r : pyseq) (b : bool) :
  test r = Ok b -> not_test test r = Ok (negb b).
Proof. intro H. unfold not_test. now rewrite H. Qed.

(** The loop [itersearch] runs for a test that answers [verdict] on every
    row of the source: the rows whose verdict differs from [complement]. *)
Lemma search_loop_select (test : pyseq -> result bool)
    (verdict : pyseq -> bool) (complement : bool) (it : traversal) :
  Forall (fun r => test r = Ok (verdict r)) (yielded it) ->
  run (if negb complement then Ok (for_yield_if test it)
       else Ok (for_yield_if (not_test test) it))
  = select (fun r => xorb (verdict r) complement) it.
Proof.
  intro H. destruct complement; cbn [negb run].
  - apply for_yield_if_select. eapply Forall_impl; [|exact H].
    intros r Hr. cbn beta. rewrite xorb_true_r. now apply not_test_ok.
  - apply for_yield_if_select. eapply Forall_impl; [|exact H].
    intros r Hr. cbn beta. now rewrite xorb_false_r.
Qed.

(** X9.  Search over the whole row never fails on a row.  It yields, in
    source order and as tuples, exactly the source rows for which "the
    pattern is found in the string form of at least one value" differs from
    the complement flag, and it ends as the source ends. *)
Theorem search_whole_row (E : ReEngine) (hdr : pyseq) (it : traversal)
    (pattern : pyobj) (flags : Z) (complement : bool) (p : prog E) :
  compile E pattern flags = Ok p ->
  let out := itersearch E (Yield hdr it) pattern (OVal VNone) flags
               complement in
  let matches r := existsb (fun v => found E p (str v)) (elems r) in
  data_rows out
  = map retuple (filter (fun r => xorb (matches r) complement) (yielded it))
  /\ final out = final it.
Proof.
  intros Hc out matches. subst out. unfold itersearch. rewrite Hc.
  cbn [bind next run make_test]. unfold data_rows. cbn [yielded tl final].
  rewrite (search_loop_select (test_whole_row E p) matches complement it).
  - now rewrite yielded_select, final_select.
  - apply Forall_forall. intros r _. reflexivity.
Qed.

Lemma search_whole_row_witness :
  let it := of_rows [orange;
                     pylist [VStr "banana"; VInt 74; VStr "lovely too"]] in
  let out := itersearch PyRe.engine (Yield fruit_header it) dot_g_dot
               (OVal VNone) 0 true in
  let matches r :=
    existsb (fun v => found PyRe.engine
                        (PyRe.Prog
                           (PyRe.Seq PyRe.Any
                              (PyRe.Seq (PyRe.Chr "g")
                                 (PyRe.Seq PyRe.Any PyRe.Empty))) 0)
                        (str v)) (elems r) in
  data_rows out
  = map retuple (filter (fun r => xorb (matches r) true) (yielded it))
  /\ final out = final it.
Proof.
  apply (search_whole_row PyRe.engine fruit_header
           (of_rows [orange;
                     pylist [VStr "banana"; VInt 74; VStr "lovely too"]])
           dot_g_dot 0 true).
  reflexivity.
Defined.

Lemma getitem_nth_default (l : list value) (i : Z) :
  0 <= i < len l -> getitem l i = Ok (nth (Z.to_nat i) l VNone).
Proof.
  intro Hi. unfold getitem. cbv zeta.
  destruct (Z.ltb_spec i 0); [lia|].
  destruct (Z.leb_spec 0 i); [|lia].
  destruct (Z.ltb_spec i (len l)); [|lia]. simpl.
  destruct (nth_error l (Z.to_nat i)) as [v|] eqn:Hn.
  - now rewrite (nth_error_nth _ _ VNone Hn).
  - apply nth_error_None in Hn. unfold len in Hi. lia.
Qed.

Lemma getitem_short (l : list value) (i : Z) :
  len l <= i -> getitem l i = Raise IndexError.
Proof.
  intro Hi. unfold getitem. cbv zeta. unfold len in *.
  destruct (Z.ltb_spec i 0); [lia|].
  destruct (Z.ltb_spec i (Z.of_nat (List.length l))); [lia|].
  now rewrite andb_false_r.
Qed.

(** X10.  Search in a single field given by name.  The name is looked up
    among the string forms of the field names; with [i] its first position
    and every source row long enough to have a value there, the traversal
    yields, in source order and as tuples, exactly the rows for which "the
    pattern is found in the string form of the value at [i]" differs from
    the complement flag, and it ends as the source ends. *)
Theorem search_single_field (E : ReEngine) (hdr : pyseq) (it : traversal)
    (pattern : pyobj) (name : string) (flags : Z) (complement : bool)
    (p : prog E) (i : Z) :
  compile E pattern flags = Ok p ->
  index (names hdr) (OVal (VStr name)) = Ok i ->
  Forall (fun r => i < len (elems r)) (yielded it) ->
  let out := itersearch E (Yield hdr it) pattern (OVal (VStr name)) flags
               complement in
  let matches r := found E p (str (nth (Z.to_nat i) (elems r) VNone)) in
  data_rows out
  = map retuple (filter (fun r => xorb (matches r) complement) (yielded it))
  /\ final out = final it.
Proof.
  intros Hc Hi Hlong out matches. subst out. unfold itersearch. rewrite Hc.
  cbn [bind next run]. fold (names hdr). unfold make_test. rewrite Hi.
  cbn [bind]. unfold data_rows. cbn [yielded tl final].
  destruct (index_ok _ _ _ Hi) as (_ & Hrange & _).
  rewrite (search_loop_select (test_single_field E p i) matches complement it).
  - now rewrite yielded_select, final_select.
  - eapply Forall_impl; [|exact Hlong]. intros r Hr.
    cbn beta in Hr. unfold test_single_field, matches.
    rewrite getitem_nth_default by lia. reflexivity.
Qed.

Lemma search_single_field_witness :
  let it := of_rows [orange;
                     pylist [VStr "cucumber"; VInt 41;
                             VStr "better than mango"]] in
  let out := itersearch PyRe.engine (Yield fruit_header it) dot_g_dot
               (OVal (VStr "foo")) 0 false in
  data_rows out = [retuple orange] /\ final out = Done.
Proof.
  apply (search_single_field PyRe.engine fruit_header
           (of_rows [orange;
                     pylist [VStr "cucumber"; VInt 41;
                             VStr "better than mango"]])
           dot_g_dot "foo" 0 false
           (PyRe.Prog
              (PyRe.Seq PyRe.Any
                 (PyRe.Seq (PyRe.Chr "g") (PyRe.Seq PyRe.Any PyRe.Empty))) 0)
           0).
  - reflexivity.
  - reflexivity.
  - repeat constructor.
Defined.

(** X11.  Search in a single field meets a row too short to have the field:
    the rows before it have been filtered as usual, and the traversal ends
    at that row with IndexError; the row and everything after it are yielded
    neither by the search nor by its complement. *)
Theorem search_short_row (E : ReEngine) (hdr : pyseq) (before : list pyseq)
    (row : pyseq) (rest : traversal) (pattern : pyobj) (name : string)
    (flags : Z) (complement : bool) (p : prog E) (i : Z) :
  compile E pattern flags = Ok p ->
  index (names hdr) (OVal (VStr name)) = Ok i ->
  Forall (fun r => i < len (elems r)) before ->
  len (elems row) <= i ->
  let out := itersearch E (Yield hdr (yields before (Yield row rest))) pattern
               (OVal (VStr name)) flags complement in
  let matches r := found E p (str (nth (Z.to_nat i) (elems r) VNone)) in
  data_rows out
  = map retuple (filter (fun r => xorb (matches r) complement) before)
  /\ final out = Raised IndexError.
Proof.
  intros Hc Hi Hlong Hshort out matches. subst out.
  unfold itersearch. rewrite Hc.
  cbn [bind next run]. fold (names hdr). unfold make_test. rewrite Hi.
  cbn [bind]. unfold data_rows. cbn [yielded tl final].
  destruct (index_ok _ _ _ Hi) as (_ & Hrange & _).
  assert (Hb : Forall (fun r => test_single_field E p i r = Ok (matches r))
                 before).
  { eapply Forall_impl; [|exact Hlong]. intros r Hr.
    cbn beta in Hr. unfold test_single_field, matches.
    rewrite getitem_nth_default by lia. reflexivity. }
  assert (Hrow : test_single_field E p i row = Raise IndexError).
  { unfold test_single_field. now rewrite getitem_short. }
  destruct complement; cbn [negb run].
  - rewrite (for_yield_if_yields (not_test (test_single_field E p i))
               (fun r => xorb (matches r) true) (Yield row rest) before).
    + assert (Hn : not_test (test_single_field E p i) row = Raise IndexError)
        by (unfold not_test; now rewrite Hrow).
      cbn [for_yield_if]. rewrite Hn.
      rewrite yielded_yields, final_yields. simpl. now rewrite app_nil_r.
    + eapply Forall_impl; [|exact Hb]. intros r Hr. cbn beta.
      rewrite xorb_true_r. now apply not_test_ok.
  - rewrite (for_yield_if_yields (test_single_field E p i)
               (fun r => xorb (matches r) false) (Yield row rest) before).
    + cbn [for_yield_if]. rewrite Hrow.
      rewrite yielded_yields, final_yields. simpl. now rewrite app_nil_r.
    + eapply Forall_impl; [|exact Hb]. intros r Hr. cbn beta.
      now rewrite xorb_false_r.
Qed.

Lemma search_short_row_witness :
  let out := itersearch PyRe.engine
               (Yield fruit_header
                  (yields [orange]
                     (Yield (pylist [VStr "mango"])
                        (of_rows [pylist [VStr "fig"; VInt 1; VStr "g"]]))))
               dot_g_dot (OVal (VStr "baz")) 0 false in
  data_rows out = [retuple orange] /\ final out = Raised IndexError.
Proof.
  apply (search_short_row PyRe.engine fruit_header [orange]
           (pylist [VStr "mango"])
           (of_rows [pylist [VStr "fig"; VInt 1; VStr "g"]])
           dot_g_dot "baz" 0 false
           (PyRe.Prog
              (PyRe.Seq PyRe.Any
                 (PyRe.Seq (PyRe.Chr "g") (PyRe.Seq PyRe.Any PyRe.Empty))) 0)
           2).
  - reflexivity.
  - reflexivity.
  - repeat constructor.
  - unfold len. simpl. lia.
Defined.

(** ** Searching what a search yields *)

Lemma names_of_names (l : list value) :
  map (fun f => VStr (str f)) (map (fun f => VStr (str f)) l)
  = map (fun f => VStr (str f)) l.
Proof. rewrite map_map. reflexivity. Qed.

(** The tests that [itersearch] builds read the values of a row, not the
    kind of sequence that holds them. *)
Lemma make_test_elems (E : ReEngine) (p : prog E) (fields : list value)
    (field : pyobj) (test : pyseq -> result bool) :
  make_test E p fields field = Ok test ->
  forall r, test (retuple r) = test r.
Proof.
  unfold make_test. destruct field as [[| z |s]|q].
  - intros [= <-] r. reflexivity.
  - destruct (asindices fields (OVal (VInt z))) as [ix|]; [|discriminate].
    cbn [bind]. destruct (itemgetter ix) as [g|]; [|discriminate].
    intros [= <-] r. reflexivity.
  - destruct (index fields (OVal (VStr s))) as [i|]; [|discriminate].
    intros [= <-] r. reflexivity.
  - destruct (asindices fields (OSeq q)) as [ix|]; [|discriminate].
    cbn [bind]. destruct (itemgetter ix) as [g|]; [|discriminate].
    intros [= <-] r. reflexivity.
Qed.

Lemma for_yield_if_twice (cond : pyseq -> result bool) (it : traversal) :
  (forall r, cond (retuple r) = cond r) ->
  for_yield_if cond (for_yield_if cond it) = for_yield_if cond it.
Proof.
  intro Hc. induction it as [row k IH| |e]; simpl; auto.
  destruct (cond row) as [[|]|e] eqn:Hrow; simpl; auto.
  fold (retuple row). rewrite (Hc row), Hrow. now rewrite IH.
Qed.

Lemma for_yield_if_opposite (test : pyseq -> result bool) (it : traversal) :
  (forall r, test (retuple r) = test r) ->
  yielded (for_yield_if (not_test test) (for_yield_if test it)) = []
  /\ yielded (for_yield_if test (for_yield_if (not_test test) it)) = [].
Proof.
  intro Ht. induction it as [row k [IH1 IH2]| |e]; simpl; auto.
  unfold not_test at 2 3.
  destruct (test row) as [[|]|e] eqn:Hrow; simpl; auto.
  - fold (retuple row). unfold not_test at 1.
    rewrite (Ht row), Hrow. simpl. auto.
  - fold (retuple row). rewrite (Ht row), Hrow. auto.
Qed.

(** X12.  Searching the result of a search again, with the same pattern,
    field, flags and complement, gives the same traversal as searching once:
    the same header, the same rows, the same end, errors included. *)
Theorem search_idempotent (E : ReEngine) (t : traversal)
    (pattern field : pyobj) (flags : Z) (complement : bool) :
  itersearch E (itersearch E t pattern field flags complement) pattern field
    flags complement
  = itersearch E t pattern field flags complement.
Proof.
  unfold itersearch.
  destruct (compile E pattern flags) as [p|e] eqn:Hc; cbn [bind run];
    [|reflexivity].
  destruct t as [hdr it| |e]; cbn [next bind run elems tuple];
    [|reflexivity|reflexivity].
  rewrite names_of_names. f_equal.
  destruct (make_test E p (map (fun f => VStr (str f)) (elems hdr)) field)
    as [test|e] eqn:Ht; cbn [bind run]; [|reflexivity].
  pose proof (make_test_elems E p _ field test Ht) as He.
  destruct complement; cbn [negb run].
  - apply for_yield_if_twice. intro r. unfold not_test. now rewrite He.
  - now apply for_yield_if_twice.
Qed.

(** X13.  Searching the result of a search with the complement flag
    reversed, the other arguments being the same, yields no data row:
    nothing passes both a test and its negation. *)
Theorem search_then_complement (E : ReEngine) (t : traversal)
    (pattern field : pyobj) (flags : Z) (complement : bool) :
  data_rows
    (itersearch E (itersearch E t pattern field flags complement) pattern
       field flags (negb complement))
  = [].
Proof.
  unfold itersearch, data_rows.
  destruct (compile E pattern flags) as [p|e] eqn:Hc; cbn [bind run];
    [|reflexivity].
  destruct t as [hdr it| |e]; cbn [next bind run elems tuple yielded tl];
    [|reflexivity|reflexivity].
  rewrite names_of_names.
  destruct (make_test E p (map (fun f => VStr (str f)) (elems hdr)) field)
    as [test|e] eqn:Ht; cbn [bind run yielded]; [|reflexivity].
  pose proof (make_test_elems E p _ field test Ht) as He.
  destruct (for_yield_if_opposite test it He) as [H1 H2].
  destruct complement; cbn [negb run]; assumption.
Qed.

(** ** Search in a selection of fields *)

Lemma existsb_map {A B : Type} (f : B -> bool) (g : A -> B) (l : list A) :
  existsb f (map g l) = existsb (fun x => f (g x)) l.
Proof. induction l; simpl; congruence. Qed.

(** A selector that [itersearch] treats as a selection: neither [None] nor a
    string. *)
Definition is_selection (field : pyobj) : bool :=
  match field with
  | OVal VNone => false
  | OVal (VStr _) => false
  | _ => true
  end.

Lemma make_test_selection (E : ReEngine) (p : prog E) (fields : list value)
    (field : pyobj) :
  is_selection field = true ->
  make_test E p fields field
  = (indices <- asindices fields field ;;
     getvals <- itemgetter indices ;;
     Ok (test_selection E p getvals)).
Proof. destruct field as [[| z |s]|q]; simpl; intro H; congruence. Qed.

Lemma mapM_getitem (l : list value) (indices : list Z) :
  Forall (fun i => 0 <= i < len l) indices ->
  mapM (getitem l) indices
  = Ok (map (fun i => nth (Z.to_nat i) l VNone) indices).
Proof.
  induction 1 as [|i indices Hi _ IH]; simpl; [reflexivity|].
  now rewrite (getitem_nth_default l i Hi), IH.
Qed.

(** X14.  Search in a selection that resolves to two or more positions, over
    rows long enough to have a value at each: the traversal yields, in source
    order and as tuples, exactly the rows for which "the pattern is found in
    the string form of the value at one of the positions" differs from the
    complement flag, and it ends as the source ends. *)
Theorem search_selection_of_several (E : ReEngine) (hdr : pyseq)
    (it : traversal) (pattern field : pyobj) (flags : Z) (complement : bool)
    (p : prog E) (i1 i2 : Z) (more : list Z) :
  compile E pattern flags = Ok p ->
  is_selection field = true ->
  asindices (names hdr) field = Ok (i1 :: i2 :: more) ->
  Forall (fun r => Forall (fun i => 0 <= i < len (elems r)) (i1 :: i2 :: more))
    (yielded it) ->
  let out := itersearch E (Yield hdr it) pattern field flags complement in
  let matches r :=
    existsb (fun i => found E p (str (nth (Z.to_nat i) (elems r) VNone)))
      (i1 :: i2 :: more) in
  data_rows out
  = map retuple (filter (fun r => xorb (matches r) complement) (yielded it))
  /\ final out = final it.
Proof.
  intros Hc Hsel Hix Hlong out matches. subst out. unfold itersearch.
  rewrite Hc. cbn [bind next run]. fold (names hdr).
  rewrite (make_test_selection E p (names hdr) field Hsel), Hix.
  cbn [bind itemgetter]. unfold data_rows. cbn [yielded tl final].
  rewrite (search_loop_select
             (test_selection E p (GetItems (i1 :: i2 :: more))) matches
             complement it).
  - now rewrite yielded_select, final_select.
  - eapply Forall_impl; [|exact Hlong]. intros r Hr. cbn beta in Hr.
    unfold test_selection, call_getter, matches.
    rewrite (mapM_getitem _ _ Hr). cbn [bind iterate elems tuple].
    now rewrite existsb_map.
Qed.

Lemma search_selection_of_several_witness :
  let it := of_rows [orange;
                     pylist [VStr "banana"; VInt 74; VStr "lovely too"]] in
  let out := itersearch PyRe.engine (Yield fruit_header it) dot_g_dot
               (OSeq (pylist [VStr "foo"; VStr "baz"])) 0 false in
  data_rows out = [retuple orange] /\ final out = Done.
Proof.
  apply (search_selection_of_several PyRe.engine fruit_header
           (of_rows [orange;
                     pylist [VStr "banana"; VInt 74; VStr "lovely too"]])
           dot_g_dot (OSeq (pylist [VStr "foo"; VStr "baz"])) 0 false
           (PyRe.Prog
              (PyRe.Seq PyRe.Any
                 (PyRe.Seq (PyRe.Chr "g") (PyRe.Seq PyRe.Any PyRe.Empty))) 0)
           0 2 []).
  - reflexivity.
  - reflexivity.
  - reflexivity.
  - unfold len. repeat constructor; simpl; lia.
Defined.

(** The characters of a string, each as a string of length one. *)
Definition characters (s : string) : list string :=
  map (fun c => String c EmptyString) (list_ascii_of_string s).

(** X15.  Search in a selection that resolves to a single position [i], over
    rows that hold a string there: the test does not look for the pattern in
    the value but in each of its characters taken alone.  The traversal
    yields exactly the rows for which "the pattern is found in one of the
    characters of the value at [i]" differs from the complement flag. *)
Theorem search_selection_of_one_position (E : ReEngine) (hdr : pyseq)
    (it : traversal) (pattern field : pyobj) (flags : Z) (complement : bool)
    (p : prog E) (i : Z) :
  compile E pattern flags = Ok p ->
  is_selection field = true ->
  asindices (names hdr) field = Ok [i] ->
  Forall (fun r => exists s, getitem (elems r) i = Ok (VStr s)) (yielded it) ->
  let out := itersearch E (Yield hdr it) pattern field flags complement in
  let matches r :=
    match getitem (elems r) i with
    | Ok (VStr s) => existsb (found E p) (characters s)
    | _ => false
    end in
  data_rows out
  = map retuple (filter (fun r => xorb (matches r) complement) (yielded it))
  /\ final out = final it.
Proof.
  intros Hc Hsel Hix Hrows out matches. subst out. unfold itersearch.
  rewrite Hc. cbn [bind next run]. fold (names hdr).
  rewrite (make_test_selection E p (names hdr) field Hsel), Hix.
  cbn [bind itemgetter]. unfold data_rows. cbn [yielded tl final].
  rewrite (search_loop_select (test_selection E p (GetItem i)) matches
             complement it).
  - now rewrite yielded_select, final_select.
  - eapply Forall_impl; [|exact Hrows]. intros r [s Hs].
    unfold test_selection, call_getter, matches, characters.
    rewrite Hs. cbn [bind iterate]. rewrite !existsb_map. reflexivity.
Qed.

Lemma search_selection_of_one_position_witness :
  let it := of_rows [orange; pylist [VStr "g"; VInt 1; VStr "fig"]] in
  let out := itersearch PyRe.engine (Yield fruit_header it) (OVal (VStr "g"))
               (OSeq (pylist [VStr "foo"])) 0 false in
  data_rows out = [retuple orange; tuple [VStr "g"; VInt 1; VStr "fig"]]
  /\ final out = Done.
Proof.
  apply (search_selection_of_one_position PyRe.engine fruit_header
           (of_rows [orange; pylist [VStr "g"; VInt 1; VStr "fig"]])
           (OVal (VStr "g")) (OSeq (pylist [VStr "foo"])) 0 false
           (PyRe.Prog (PyRe.Seq (PyRe.Chr "g") PyRe.Empty) 0) 0).
  - reflexivity.
  - reflexivity.
  - reflexivity.
  - repeat constructor; eexists; reflexivity.
Defined.

(** ** How the loops fail *)

Lemma getitem_raises (l : list value) (i : Z) (e : exn) :
  getitem l i = Raise e -> e = IndexError.
Proof.
  unfold getitem. cbv zeta.
  destruct ((0 <=? (if i <? 0 then i + len l else i))
            && ((if i <? 0 then i + len l else i) <? len l)).
  - destruct (nth_error l _); [discriminate|]. now intros [= <-].
  - now intros [= <-].
Qed.

(** X16.  The loop body of capture fails on a row in exactly three ways:
    IndexError when the row has no value at the position, TypeError when the
    value there is not a string, and the transform error naming the value and
    the pattern when the value does not match and no fill is configured.  The
    loop body of split fails in the first two ways only: it raises no
    transform error. *)
Theorem loop_failures (E : ReEngine) (p : prog E) (pattern : pyobj)
    (i maxsplit : Z) (include_original : bool) (fill : option (list value))
    (row : pyseq) (e : exn) :
  (capture_row E p pattern i include_original fill row = Raise e ->
   (e = IndexError /\ getitem (elems row) i = Raise IndexError)
   \/ (e = TypeError
       /\ exists v, getitem (elems row) i = Ok v /\ is_str v = false)
   \/ (exists s, getitem (elems row) i = Ok (VStr s)
                 /\ re_search E p s = None /\ fill = None
                 /\ e = TransformError
                          [Lit "value "; Repr (OVal (VStr s));
                           Lit " did not match pattern "; Repr pattern]))
  /\ (split_row E p i include_original maxsplit row = Raise e ->
      (e = IndexError /\ getitem (elems row) i = Raise IndexError)
      \/ (e = TypeError
          /\ exists v, getitem (elems row) i = Ok v /\ is_str v = false)).
Proof.
  unfold capture_row, split_row.
  destruct (getitem (elems row) i) as [v|e'] eqn:Hv; cbn [bind].
  - destruct v as [| z |s]; cbn [search_groups split_pieces bind].
    + split; intros [= <-]; right; [left|]; split; eauto.
    + split; intros [= <-]; right; [left|]; split; eauto.
    + split; [|discriminate].
      destruct (re_search E p s) eqn:Hm; [discriminate|].
      destruct fill; [discriminate|].
      intros [= <-]. right. right. exists s. auto.
  - pose proof (getitem_raises _ _ _ Hv) as ->.
    split; intros [= <-]; left; auto.
Qed.

Lemma loop_failures_witness :
  (TypeError = IndexError
   /\ getitem (elems (pylist [VStr "2"; VInt 7; VStr "15"])) 1
      = Raise IndexError)
  \/ (TypeError = TypeError
      /\ exists v, getitem (elems (pylist [VStr "2"; VInt 7; VStr "15"])) 1
                   = Ok v /\ is_str v = false).
Proof.
  apply (proj2 (loop_failures PyRe.engine
                  (PyRe.Prog (PyRe.Seq (PyRe.Chr "d") PyRe.Empty) 0)
                  (OVal (VStr "d")) 1 0 false None
                  (pylist [VStr "2"; VInt 7; VStr "15"]) TypeError)).
  reflexivity.
Defined.

(** * Traversals over a store of mutable objects

    The stages once more, this time with the objects they handle held in a
    store: the lists and tuples of the source, the [newfields] and [fill]
    sequences, and everything a traversal builds.  [list(x)] makes a new
    list, [remove] and [extend] change a list where it is, [tuple(x)] makes a
    new tuple unless [x] is one already.  Objects built and dropped within
    one expression (the groups of a match, the pieces of a split, the values
    a getter picks) are not given a place in the store. *)

Module Store.

Inductive object : Type :=
| ListObj (items : list value)
| TupleObj (items : list value).

Definition items_of (o : object) : list value :=
  match o with
  | ListObj l => l
  | TupleObj l => l
  end.

Definition seq_of (o : object) : pyseq :=
  match o with
  | ListObj l => pylist l
  | TupleObj l => tuple l
  end.

(** A store: the object at address [l] is the [l]-th of the list. *)
Definition heap : Type := list object.

(** The sequence a reference stands for. *)
Definition deref (h : heap) (l : nat) : pyseq :=
  match nth_error h l with
  | Some o => seq_of o
  | None => tuple []
  end.

(** Computations that read and change the store, and may raise. *)
Definition M (A : Type) : Type := heap -> result A * heap.

Definition ret {A : Type} (a : A) : M A := fun h => (Ok a, h).

Definition lift {A : Type} (r : result A) : M A := fun h => (r, h).

Definition mbind {A B : Type} (m : M A) (f : A -> M B) : M B :=
  fun h =>
    match m h with
    | (Ok a, h1) => f a h1
    | (Raise e, h1) => (Raise e, h1)
    end.

Notation "x <~ m ;; k" := (mbind m (fun x => k))
  (at level 61, m at next level, right associativity).

Definition get (l : nat) : M object :=
  fun h =>
    match nth_error h l with
    | Some o => (Ok o, h)
    | None => (Raise (Exception_ "no such object"), h)
    end.

Definition alloc (o : object) : M nat :=
  fun h => (Ok (List.length h), h ++ [o]).

Fixpoint replace (l : nat) (o : object) (h : heap) : heap :=
  match h, l with
  | [], _ => []
  | _ :: h', O => o :: h'
  | x :: h', S l' => x :: replace l' o h'
  end.

Definition put (l : nat) (o : object) : M unit :=
  fun h => (Ok tt, replace l o h).

(** [list(x)] *)
Definition list_of (x : nat) : M nat :=
  o <~ get x ;; alloc (ListObj (items_of o)).

(** [tuple(x)]: a tuple is returned as it is. *)
Definition tuple_of (x : nat) : M nat :=
  o <~ get x ;;
  match o with
  | TupleObj _ => ret x
  | ListObj l => alloc (TupleObj l)
  end.

(** [x.remove(v)], on a list, in place. *)
Definition list_remove (x : nat) (v : pyobj) : M unit :=
  o <~ get x ;;
  match o with
  | ListObj l => l' <~ lift (remove l v) ;; put x (ListObj l')
  | TupleObj _ => lift (Raise (Exception_ "tuple has no remove"))
  end.

(** [x.extend(vs)], on a list, in place. *)
Definition list_extend (x : nat) (vs : list value) : M unit :=
  o <~ get x ;;
  match o with
  | ListObj l => put x (ListObj (l ++ vs))
  | TupleObj _ => lift (Raise (Exception_ "tuple has no extend"))
  end.

(** What a generator has done when its traversal is over: the references
    it yielded, how it ended, and the store it leaves. *)
Definition ran : Type := list nat * outcome * heap.

(** [for row in it: ...], the body yielding at most once. *)
Fixpoint loop (body : nat -> M (option nat)) (rows : list nat)
    (fin : outcome) (h : heap) : ran :=
  match rows with
  | [] => ([], fin, h)
  | row :: rest =>
      match body row h with
      | (Ok (Some out), h1) =>
          let '(outs, o, h2) := loop body rest fin h1 in (out :: outs, o, h2)
      | (Ok None, h1) => loop body rest fin h1
      | (Raise e, h1) => ([], Raised e, h1)
      end
  end.

(** A generator body that may fail before its first yield. *)
Definition start (m : M (nat * (heap -> ran))) (h : heap) : ran :=
  match m h with
  | (Ok (first, rest), h1) =>
      let '(outs, o, h2) := rest h1 in (first :: outs, o, h2)
  | (Raise e, h1) => ([], Raised e, h1)
  end.

(** [next(it)] on a source that yields [rows] and ends as [fin]. *)
Definition next_row (rows : list nat) (fin : outcome)
  : M (nat * list nat) :=
  match rows with
  | r :: rest => ret (r, rest)
  | [] =>
      match fin with
      | Done => lift (Raise StopIteration)
      | Raised e => lift (Raise e)
      end
  end.

(** [if newfields: out_flds.extend(newfields)] *)
Definition extend_if_any (out_flds : nat) (newfields : option nat) : M unit :=
  match newfields with
  | None => ret tt
  | Some nf =>
      o <~ get nf ;;
      match items_of o with
      | [] => ret tt
      | vs => list_extend out_flds vs
      end
  end.

Section Generators.

Variable E : ReEngine.

Definition capture_row (p : prog E) (pattern : pyobj) (field_index : Z)
    (include_original : bool) (fill : option nat) (row : nat)
  : M (option nat) :=
  r <~ get row ;;
  v <~ lift (getitem (items_of r) field_index) ;;
  out_row <~ (if include_original then list_of row
              else alloc (ListObj (drop_index field_index (items_of r)))) ;;
  m <~ lift (search_groups E p v) ;;
  _ <~ match m with
       | None =>
           match fill with
           | Some f => fo <~ get f ;; list_extend out_row (items_of fo)
           | None => lift (Raise (did_not_match v pattern))
           end
       | Some groups => list_extend out_row groups
       end ;;
  t <~ tuple_of out_row ;;
  ret (Some t).

Definition itercapture (rows : list nat) (fin : outcome)
    (field pattern : pyobj) (newfields : option nat)
    (include_original : bool) (flags : Z) (fill : option nat)
  : heap -> ran :=
  start (
    p <~ lift (compile E pattern flags) ;;
    hr <~ next_row rows fin ;;
    flds <~ get (fst hr) ;;
    field_index <~ lift
      (if py_in field (items_of flds) then index (items_of flds) field
       else match field with
            | OVal (VInt i) =>
                if i <? len (items_of flds) then Ok i else Raise field_invalid
            | _ => Raise field_invalid
            end) ;;
    out_flds <~ list_of (fst hr) ;;
    _ <~ (if negb include_original then list_remove out_flds field
          else ret tt) ;;
    _ <~ extend_if_any out_flds newfields ;;
    t <~ tuple_of out_flds ;;
    ret (t, loop (capture_row p pattern field_index include_original fill)
              (snd hr) fin)).

Definition split_row (p : prog E) (field_index : Z) (include_original : bool)
    (maxsplit : Z) (row : nat) : M (option nat) :=
  r <~ get row ;;
  v <~ lift (getitem (items_of r) field_index) ;;
  out_row <~ (if include_original then list_of row
              else alloc (ListObj (drop_index field_index (items_of r)))) ;;
  pieces <~ lift (split_pieces E p v maxsplit) ;;
  _ <~ list_extend out_row pieces ;;
  t <~ tuple_of out_row ;;
  ret (Some t).

Definition itersplit (rows : list nat) (fin : outcome)
    (field pattern : pyobj) (newfields : option nat)
    (include_original : bool) (maxsplit flags : Z) : heap -> ran :=
  start (
    p <~ lift (compile E pattern flags) ;;
    hr <~ next_row rows fin ;;
    flds <~ get (fst hr) ;;
    fi <~ lift
      (if py_in field (items_of flds)
       then i <- index (items_of flds) field ;; Ok (i, field)
       else match field with
            | OVal (VInt i) =>
                if i <? len (items_of flds)
                then f <- getitem (items_of flds) i ;; Ok (i, OVal f)
                else Raise field_invalid
            | _ => Raise field_invalid
            end) ;;
    out_flds <~ list_of (fst hr) ;;
    _ <~ (if negb include_original then list_remove out_flds (snd fi)
          else ret tt) ;;
    _ <~ extend_if_any out_flds newfields ;;
    t <~ tuple_of out_flds ;;
    ret (t, loop (split_row p (fst fi) include_original maxsplit)
              (snd hr) fin)).

(** The two loops of [itersearch]: [yield tuple(row)] for the rows on which
    the test gives [wanted]. *)
Definition search_row (test : pyseq -> result bool) (wanted : bool)
    (row : nat) : M (option nat) :=
  r <~ get row ;;
  b <~ lift (test (seq_of r)) ;;
  if Bool.eqb b wanted then t <~ tuple_of row ;; ret (Some t)
  else ret None.

Definition itersearch (rows : list nat) (fin : outcome)
    (pattern field : pyobj) (flags : Z) (complement : bool) : heap -> ran :=
  start (
    p <~ lift (compile E pattern flags) ;;
    hr <~ next_row rows fin ;;
    flds <~ get (fst hr) ;;
    fields <~ alloc (ListObj (map (fun f => VStr (str f)) (items_of flds))) ;;
    t <~ tuple_of fields ;;
    ret (t, fun h =>
              match make_test E p
                      (map (fun f => VStr (str f)) (items_of flds)) field with
              | Ok test =>
                  if negb complement
                  then loop (search_row test true) (snd hr) fin h
                  else loop (search_row test false) (snd hr) fin h
              | Raise e => ([], Raised e, h)
              end)).

End Generators.

(** A view without its source: what [CaptureView], [SplitView] and
    [SearchView] keep from their construction.  [newfields] and [fill] are
    references to sequences of the store. *)
Inductive stage : Type :=
| CaptureStage (field pattern : pyobj) (newfields : option nat)
    (include_original : bool) (flags : Z) (fill : option nat)
| SplitStage (field pattern : pyobj) (newfields : option nat)
    (include_original : bool) (maxsplit flags : Z)
| SearchStage (pattern field : pyobj) (flags : Z) (complement : bool).

(** The sequences a view refers to. *)
Definition references (s : stage) : list nat :=
  match s with
  | CaptureStage _ _ newfields _ _ fill =>
      match newfields with Some l => [l] | None => [] end
      ++ match fill with Some l => [l] | None => [] end
  | SplitStage _ _ newfields _ _ _ =>
      match newfields with Some l => [l] | None => [] end
  | SearchStage _ _ _ _ => []
  end.

(** [__iter__]: the generator of the view on a traversal of its source,
    which yields [rows] and ends as [fin]. *)
Definition traverse (E : ReEngine) (s : stage) (rows : list nat)
    (fin : outcome) : heap -> ran :=
  match s with
  | CaptureStage field pattern newfields include_original flags fill =>
      itercapture E rows fin field pattern newfields include_original flags
        fill
  | SplitStage field pattern newfields include_original maxsplit flags =>
      itersplit E rows fin field pattern newfields include_original maxsplit
        flags
  | SearchStage pattern field flags complement =>
      itersearch E rows fin pattern field flags complement
  end.

(** ** What a consumer sees *)

Definition ending (o : outcome) : traversal :=
  match o with
  | Done => Return
  | Raised e => Throw e
  end.

(** The sequences behind the references yielded, and the end. *)
Definition seen (r : ran) : traversal :=
  let '(outs, o, h) := r in yields (map (deref h) outs) (ending o).

(** A source that yields the objects at [rows], as they are in [h]. *)
Definition source (h : heap) (rows : list nat) (fin : outcome) : traversal :=
  yields (map (deref h) rows) (ending fin).

(** The sequence behind an optional reference. *)
Definition deref_opt (h : heap) (x : option nat) : option (list value) :=
  match x with
  | Some l => Some (elems (deref h l))
  | None => None
  end.

Definition after (r : ran) : heap := snd r.

(** [h'] holds every object of [h], unchanged, at the same address. *)
Definition extends (h h' : heap) : Prop := exists ext, h' = h ++ ext.

(** A loop in terms of traversals, its body yielding at most once. *)
Fixpoint ploop (f : pyseq -> result (option pyseq)) (it : traversal)
  : traversal :=
  match it with
  | Yield r k =>
      match f r with
      | Ok (Some o) => Yield o (ploop f k)
      | Ok None => ploop f k
      | Raise e => Throw e
      end
  | Return => Return
  | Throw e => Throw e
  end.

(** ** The store grows at its end *)

Lemma extends_refl (h : heap) : extends h h.
Proof. exists []. now rewrite app_nil_r. Qed.

Lemma extends_trans (h1 h2 h3 : heap) :
  extends h1 h2 -> extends h2 h3 -> extends h1 h3.
Proof. intros [e1 ->] [e2 ->]. exists (e1 ++ e2). now rewrite app_assoc. Qed.

Lemma extends_app (h ext : heap) : extends h (h ++ ext).
Proof. now exists ext. Qed.

Lemma extends_length (h h' : heap) :
  extends h h' -> (List.length h <= List.length h')%nat.
Proof. intros [e ->]. rewrite length_app. lia. Qed.

Lemma extends_nth (h h' : heap) (l : nat) :
  extends h h' -> (l < List.length h)%nat ->
  nth_error h' l = nth_error h l.
Proof. intros [e ->] Hl. now apply nth_error_app1. Qed.

Lemma extends_deref (h h' : heap) (l : nat) :
  extends h h' -> (l < List.length h)%nat -> deref h' l = deref h l.
Proof. intros He Hl. unfold deref. now rewrite (extends_nth h h' l He Hl). Qed.

Lemma extends_deref_all (h h' : heap) (ls : list nat) :
  extends h h' -> Forall (fun l => (l < List.length h)%nat) ls ->
  map (deref h') ls = map (deref h) ls.
Proof.
  intros He. induction 1 as [|l ls Hl _ IH]; simpl; [reflexivity|].
  now rewrite IH, (extends_deref h h' l He Hl).
Qed.

Lemma nth_valid (h : heap) (l : nat) :
  (l < List.length h)%nat -> exists o, nth_error h l = Some o.
Proof.
  intro Hl. destruct (nth_error h l) as [o|] eqn:Hn; [eauto|].
  apply nth_error_None in Hn. lia.
Qed.

Lemma nth_fresh (h ext : heap) (o : object) :
  nth_error (h ++ o :: ext) (List.length h) = Some o.
Proof. rewrite nth_error_app2 by lia. now rewrite Nat.sub_diag. Qed.

Lemma replace_fresh (h ext : heap) (o x : object) :
  replace (List.length h) o (h ++ x :: ext) = h ++ o :: ext.
Proof. induction h as [|y h IH]; simpl; [reflexivity|]. now rewrite IH. Qed.

Lemma deref_items (h : heap) (l : nat) (o : object) :
  nth_error h l = Some o ->
  deref h l = seq_of o /\ elems (deref h l) = items_of o.
Proof. intro H. unfold deref. rewrite H. now destruct o. Qed.

(** ** The operations, on an object just made *)

Lemma get_at (h : heap) (l : nat) (o : object) :
  nth_error h l = Some o -> get l h = (Ok o, h).
Proof. intro H. unfold get. now rewrite H. Qed.

Lemma list_of_at (h : heap) (x : nat) (o : object) :
  nth_error h x = Some o ->
  list_of x h = (Ok (List.length h), h ++ [ListObj (items_of o)]).
Proof. intro H. unfold list_of, mbind. now rewrite (get_at h x o H). Qed.

Lemma list_extend_fresh (h : heap) (l vs : list value) :
  list_extend (List.length h) vs (h ++ [ListObj l])
  = (Ok tt, h ++ [ListObj (l ++ vs)]).
Proof.
  unfold list_extend, mbind. rewrite (get_at _ _ _ (nth_fresh h [] _)).
  unfold put. now rewrite replace_fresh.
Qed.

Lemma list_remove_fresh (h : heap) (l : list value) (v : pyobj) :
  list_remove (List.length h) v (h ++ [ListObj l])
  = match remove l v with
    | Ok l' => (Ok tt, h ++ [ListObj l'])
    | Raise e => (Raise e, h ++ [ListObj l])
    end.
Proof.
  unfold list_remove, mbind. rewrite (get_at _ _ _ (nth_fresh h [] _)).
  unfold lift, put. destruct (remove l v); [|reflexivity].
  now rewrite replace_fresh.
Qed.

Lemma tuple_of_fresh (h : heap) (l : list value) :
  tuple_of (List.length h) (h ++ [ListObj l])
  = (Ok (S (List.length h)), h ++ [ListObj l; TupleObj l]).
Proof.
  unfold tuple_of, mbind. rewrite (get_at _ _ _ (nth_fresh h [] _)).
  unfold alloc. rewrite length_app, <- app_assoc. simpl.
  now rewrite Nat.add_1_r.
Qed.

Lemma deref_tuple_fresh (h : heap) (o : object) (l : list value) :
  deref (h ++ [o; TupleObj l]) (S (List.length h)) = tuple l.
Proof.
  unfold deref.
  replace (h ++ [o; TupleObj l]) with ((h ++ [o]) ++ TupleObj l :: [])
    by now rewrite <- app_assoc.
  replace (S (List.length h)) with (List.length (h ++ [o]))
    by (rewrite length_app; simpl; lia).
  now rewrite nth_fresh.
Qed.

Lemma mbind_ok {A B : Type} (m : M A) (f : A -> M B) (h h1 : heap) (a : A) :
  m h = (Ok a, h1) -> mbind m f h = f a h1.
Proof. intro H. unfold mbind. now rewrite H. Qed.

Lemma mbind_raise {A B : Type} (m : M A) (f : A -> M B) (h h1 : heap)
    (e : exn) :
  m h = (Raise e, h1) -> mbind m f h = (Raise e, h1).
Proof. intro H. unfold mbind. now rewrite H. Qed.

Lemma mbind_ret {A B : Type} (a : A) (f : A -> M B) (h : heap) :
  mbind (ret a) f h = f a h.
Proof. reflexivity. Qed.

Lemma mbind_lift {A B : Type} (r : result A) (f : A -> M B) (h : heap) :
  mbind (lift r) f h
  = match r with
    | Ok a => f a h
    | Raise e => (Raise e, h)
    end.
Proof. unfold mbind, lift. now destruct r. Qed.

(** In place: removing from a list that was there before changes it. *)
Lemma list_remove_in_place (h : heap) (x : nat) (l l' : list value)
    (v : pyobj) :
  nth_error h x = Some (ListObj l) ->
  remove l v = Ok l' ->
  list_remove x v h = (Ok tt, replace x (ListObj l') h).
Proof.
  intros Hx Hr. unfold list_remove, mbind. rewrite (get_at h x _ Hx).
  unfold lift. now rewrite Hr.
Qed.

(** ** Loops *)

(** [body], run in any store that extends [h0], does on a row of [h0] what
    [f] does on the sequence behind it, and only adds to the store. *)
Definition refines (h0 : heap) (body : nat -> M (option nat))
    (f : pyseq -> result (option pyseq)) : Prop :=
  forall (h : heap) (row : nat),
    extends h0 h -> (row < List.length h0)%nat ->
    extends h (snd (body row h))
    /\ match f (deref h0 row) with
       | Ok (Some out) =>
           exists l, fst (body row h) = Ok (Some l)
                     /\ (l < List.length (snd (body row h)))%nat
                     /\ deref (snd (body row h)) l = out
       | Ok None => fst (body row h) = Ok None
       | Raise e => fst (body row h) = Raise e
       end.

Lemma loop_refines (h0 : heap) (body : nat -> M (option nat))
    (f : pyseq -> result (option pyseq)) (fin : outcome) :
  refines h0 body f ->
  forall rows,
    Forall (fun l => (l < List.length h0)%nat) rows ->
    forall h, extends h0 h ->
      extends h (after (loop body rows fin h))
      /\ seen (loop body rows fin h) = ploop f (source h0 rows fin).
Proof.
  intros Hb. induction 1 as [|row rows Hrow _ IH]; intros h Hh.
  - simpl. split; [apply extends_refl|]. now destruct fin.
  - destruct (Hb h row Hh Hrow) as [Hext Hres].
    cbn [loop source map yields ploop].
    destruct (body row h) as [res h1] eqn:Hbody. cbn [fst snd] in *.
    assert (Hh1 : extends h0 h1) by (eapply extends_trans; eauto).
    destruct (IH h1 Hh1) as [Hext2 Hseen]. unfold source in Hseen.
    destruct (f (deref h0 row)) as [[out|]|e].
    + destruct Hres as (l & -> & Hl & Hout).
      destruct (loop body rows fin h1) as [[outs o] h2] eqn:Hloop.
      unfold after in *. cbn [fst snd seen map yields] in *.
      split; [eapply extends_trans; eauto|].
      now rewrite (extends_deref h1 h2 l Hext2 Hl), Hout, Hseen.
    + rewrite Hres. split; [eapply extends_trans; eauto | exact Hseen].
    + rewrite Hres. unfold after. cbn [snd seen map yields ending].
      split; [exact Hext | reflexivity].
Qed.

Lemma ploop_for_yield (g : pyseq -> result pyseq) (it : traversal) :
  ploop (fun r => o <- g r ;; Ok (Some o)) it = for_yield g it.
Proof.
  induction it as [r k IH| |e]; simpl; auto.
  destruct (g r); simpl; now rewrite ?IH.
Qed.

Lemma ploop_for_yield_if (c : pyseq -> result bool) (it : traversal) :
  ploop (fun r => b <- c r ;; Ok (if b then Some (retuple r) else None)) it
  = for_yield_if c it.
Proof.
  induction it as [r k IH| |e]; simpl; auto.
  destruct (c r) as [[|]|]; simpl; now rewrite ?IH.
Qed.

End Store.

(** ** The loop bodies in the store and on sequences *)

Lemma capture_row_refines (E : ReEngine) (h0 : Store.heap) (p : prog E)
    (pattern : pyobj) (i : Z) (include_original : bool) (fill : option nat) :
  (forall f, fill = Some f -> (f < List.length h0)%nat) ->
  Store.refines h0
    (Store.capture_row E p pattern i include_original fill)
    (fun r =>
       o <- capture_row E p pattern i include_original
              (Store.deref_opt h0 fill) r ;;
       Ok (Some o)).
Proof.
  intros Hfill h row Hh Hrow.
  destruct (Store.nth_valid h0 row Hrow) as [r0 Hr0].
  assert (Hr : nth_error h row = Some r0)
    by now rewrite (Store.extends_nth h0 h row Hh Hrow).
  destruct (Store.deref_items h0 row r0 Hr0) as [_ Hel].
  unfold Store.capture_row, capture_row.
  rewrite (Store.mbind_ok _ _ _ _ _ (Store.get_at h row r0 Hr)), Hel.
  rewrite Store.mbind_lift.
  destruct (getitem (Store.items_of r0) i) as [v|e]; cbn [bind fst snd];
    [|split; [apply Store.extends_refl | reflexivity]].
  set (base := if include_original then Store.items_of r0
               else drop_index i (Store.items_of r0)).
  assert (Halloc :
    (if include_original then Store.list_of row
     else Store.alloc
            (Store.ListObj (drop_index i (Store.items_of r0)))) h
    = (Ok (List.length h), h ++ [Store.ListObj base])).
  { subst base. destruct include_original;
      [now apply Store.list_of_at | reflexivity]. }
  rewrite (Store.mbind_ok _ _ _ _ _ Halloc), Store.mbind_lift.
  destruct (search_groups E p v) as [[g|]|e]; cbn [bind fst snd].
  - rewrite (Store.mbind_ok _ _ _ _ _ (Store.list_extend_fresh h base g)).
    rewrite (Store.mbind_ok _ _ _ _ _ (Store.tuple_of_fresh h (base ++ g))).
    unfold Store.ret. cbn [fst snd].
    split; [apply Store.extends_app|].
    exists (S (List.length h)). split; [reflexivity|].
    split; [rewrite length_app; simpl; lia|].
    apply Store.deref_tuple_fresh.
  - destruct fill as [f|]; cbn [Store.deref_opt].
    + specialize (Hfill f eq_refl).
      destruct (Store.nth_valid h0 f Hfill) as [fo Hfo].
      destruct (Store.deref_items h0 f fo Hfo) as [_ Hfel].
      assert (Hf : nth_error (h ++ [Store.ListObj base]) f = Some fo).
      { rewrite (Store.extends_nth h0 _ f); [exact Hfo | | exact Hfill].
        eapply Store.extends_trans; [exact Hh | apply Store.extends_app]. }
      assert (Hext :
        Store.mbind (Store.get f)
          (fun fo => Store.list_extend (List.length h) (Store.items_of fo))
          (h ++ [Store.ListObj base])
        = (Ok tt, h ++ [Store.ListObj (base ++ Store.items_of fo)])).
      { rewrite (Store.mbind_ok _ _ _ _ _ (Store.get_at _ f fo Hf)).
        apply Store.list_extend_fresh. }
      rewrite (Store.mbind_ok _ _ _ _ _ Hext).
      rewrite (Store.mbind_ok _ _ _ _ _
                 (Store.tuple_of_fresh h (base ++ Store.items_of fo))).
      unfold Store.ret. cbn [fst snd]. rewrite Hfel.
      split; [apply Store.extends_app|].
      exists (S (List.length h)). split; [reflexivity|].
      split; [rewrite length_app; simpl; lia|].
      apply Store.deref_tuple_fresh.
    + rewrite Store.mbind_lift. cbn [fst snd].
      split; [apply Store.extends_app | reflexivity].
  - split; [apply Store.extends_app | reflexivity].
Qed.

Lemma split_row_refines (E : ReEngine) (h0 : Store.heap) (p : prog E)
    (i : Z) (include_original : bool) (maxsplit : Z) :
  Store.refines h0
    (Store.split_row E p i include_original maxsplit)
    (fun r => o <- split_row E p i include_original maxsplit r ;; Ok (Some o)).
Proof.
  intros h row Hh Hrow.
  destruct (Store.nth_valid h0 row Hrow) as [r0 Hr0].
  assert (Hr : nth_error h row = Some r0)
    by now rewrite (Store.extends_nth h0 h row Hh Hrow).
  destruct (Store.deref_items h0 row r0 Hr0) as [_ Hel].
  unfold Store.split_row, split_row.
  rewrite (Store.mbind_ok _ _ _ _ _ (Store.get_at h row r0 Hr)), Hel.
  rewrite Store.mbind_lift.
  destruct (getitem (Store.items_of r0) i) as [v|e]; cbn [bind fst snd];
    [|split; [apply Store.extends_refl | reflexivity]].
  set (base := if include_original then Store.items_of r0
               else drop_index i (Store.items_of r0)).
  assert (Halloc :
    (if include_original then Store.list_of row
     else Store.alloc
            (Store.ListObj (drop_index i (Store.items_of r0)))) h
    = (Ok (List.length h), h ++ [Store.ListObj base])).
  { subst base. destruct include_original;
      [now apply Store.list_of_at | reflexivity]. }
  rewrite (Store.mbind_ok _ _ _ _ _ Halloc), Store.mbind_lift.
  destruct (split_pieces E p v maxsplit) as [pieces|e]; cbn [bind fst snd].
  - rewrite (Store.mbind_ok _ _ _ _ _ (Store.list_extend_fresh h base pieces)).
    rewrite (Store.mbind_ok _ _ _ _ _
               (Store.tuple_of_fresh h (base ++ pieces))).
    unfold Store.ret. cbn [fst snd].
    split; [apply Store.extends_app|].
    exists (S (List.length h)). split; [reflexivity|].
    split; [rewrite length_app; simpl; lia|].
    apply Store.deref_tuple_fresh.
  - split; [apply Store.extends_app | reflexivity].
Qed.

Lemma tuple_of_row (h : Store.heap) (row : nat) (r : Store.object) :
  nth_error h row = Some r ->
  Store.extends h (snd (Store.tuple_of row h))
  /\ exists l,
       fst (Store.tuple_of row h) = Ok l
       /\ (l < List.length (snd (Store.tuple_of row h)))%nat
       /\ Store.deref (snd (Store.tuple_of row h)) l
          = retuple (Store.seq_of r).
Proof.
  intro Hr. unfold Store.tuple_of, Store.mbind.
  rewrite (Store.get_at h row r Hr). destruct r as [l|l].
  - unfold Store.alloc. cbn [fst snd].
    split; [apply Store.extends_app|].
    exists (List.length h). split; [reflexivity|].
    split; [rewrite length_app; simpl; lia|].
    unfold Store.deref. now rewrite Store.nth_fresh.
  - unfold Store.ret. cbn [fst snd].
    split; [apply Store.extends_refl|].
    exists row. split; [reflexivity|].
    split; [apply nth_error_Some; congruence|].
    unfold Store.deref. now rewrite Hr.
Qed.

Lemma search_row_refines (h0 : Store.heap) (test : pyseq -> result bool)
    (wanted : bool) :
  Store.refines h0 (Store.search_row test wanted)
    (fun r =>
       b <- test r ;;
       Ok (if Bool.eqb b wanted then Some (retuple r) else None)).
Proof.
  intros h row Hh Hrow.
  destruct (Store.nth_valid h0 row Hrow) as [r0 Hr0].
  assert (Hr : nth_error h row = Some r0)
    by now rewrite (Store.extends_nth h0 h row Hh Hrow).
  destruct (Store.deref_items h0 row r0 Hr0) as [Hseq _].
  unfold Store.search_row.
  rewrite (Store.mbind_ok _ _ _ _ _ (Store.get_at h row r0 Hr)), Hseq.
  rewrite Store.mbind_lift.
  destruct (test (Store.seq_of r0)) as [b|e]; cbn [bind fst snd];
    [|split; [apply Store.extends_refl | reflexivity]].
  destruct (Bool.eqb b wanted).
  - destruct (tuple_of_row h row r0 Hr) as (Hext & l & Hl & Hlt & Hd).
    destruct (Store.tuple_of row h) as [res h1] eqn:Ht. cbn [fst snd] in *.
    subst res. rewrite (Store.mbind_ok _ _ _ _ _ Ht).
    unfold Store.ret. cbn [fst snd]. split; [exact Hext|].
    exists l. auto.
  - unfold Store.ret. cbn [fst snd].
    split; [apply Store.extends_refl | reflexivity].
Qed.

(** ** The generators in the store and on sequences *)

Lemma start_raise (m : Store.M (nat * (Store.heap -> Store.ran)))
    (h h1 : Store.heap) (e : exn) :
  m h = (Raise e, h1) ->
  Store.extends h h1 ->
  Store.extends h (Store.after (Store.start m h))
  /\ Store.seen (Store.start m h) = Throw e.
Proof.
  intros Hm Hext. unfold Store.start, Store.after. rewrite Hm. simpl. auto.
Qed.

Lemma start_ok (m : Store.M (nat * (Store.heap -> Store.ran)))
    (h h1 : Store.heap) (first : nat) (rest : Store.heap -> Store.ran)
    (t : traversal) :
  m h = (Ok (first, rest), h1) ->
  Store.extends h h1 ->
  (first < List.length h1)%nat ->
  Store.extends h1 (Store.after (rest h1)) ->
  Store.seen (rest h1) = t ->
  Store.extends h (Store.after (Store.start m h))
  /\ Store.seen (Store.start m h) = Yield (Store.deref h1 first) t.
Proof.
  intros Hm Hext Hfirst Hrest Hseen. unfold Store.start, Store.after in *.
  rewrite Hm. destruct (rest h1) as [[outs o] h2]. cbn [fst snd] in *.
  split; [eapply Store.extends_trans; eauto|].
  cbn [Store.seen map yields] in *.
  now rewrite (Store.extends_deref h1 h2 first Hrest Hfirst), Hseen.
Qed.

Lemma extend_if_any_fresh (h : Store.heap) (l : list value)
    (newfields : option nat) :
  (forall nf, newfields = Some nf -> (nf < List.length h)%nat) ->
  Store.extend_if_any (List.length h) newfields (h ++ [Store.ListObj l])
  = (Ok tt,
     h ++ [Store.ListObj (extend_if l (Store.deref_opt h newfields))]).
Proof.
  intro Hnf. destruct newfields as [nf|]; [|reflexivity].
  specialize (Hnf nf eq_refl).
  destruct (Store.nth_valid h nf Hnf) as [o Ho].
  destruct (Store.deref_items h nf o Ho) as [_ Hel].
  assert (Hget : nth_error (h ++ [Store.ListObj l]) nf = Some o)
    by (rewrite nth_error_app1; auto).
  unfold Store.extend_if_any.
  rewrite (Store.mbind_ok _ _ _ _ _ (Store.get_at _ nf o Hget)).
  cbn [Store.deref_opt]. rewrite Hel.
  destruct (Store.items_of o) as [|v vs]; [reflexivity|].
  apply Store.list_extend_fresh.
Qed.

Lemma source_cons (h : Store.heap) (hd : nat) (rest : list nat)
    (fin : outcome) :
  Store.source h (hd :: rest) fin
  = Yield (Store.deref h hd) (Store.source h rest fin).
Proof. reflexivity. Qed.

Lemma next_source_nil (h : Store.heap) (fin : outcome) :
  next (Store.source h [] fin)
  = match fin with
    | Done => Raise StopIteration
    | Raised e => Raise e
    end.
Proof. now destruct fin. Qed.

(** The header that [itercapture] and [itersplit] build in a new list. *)
Lemma header_in_store (h : Store.heap) (hd : nat) (o : Store.object)
    (include_original : bool) (field : pyobj) (newfields : option nat)
    (B : Type) (k : nat -> Store.M B) :
  nth_error h hd = Some o ->
  (forall nf, newfields = Some nf -> (nf < List.length h)%nat) ->
  Store.mbind (Store.list_of hd)
    (fun out_flds =>
       Store.mbind
         (if negb include_original then Store.list_remove out_flds field
          else Store.ret tt)
         (fun _ =>
            Store.mbind (Store.extend_if_any out_flds newfields)
              (fun _ => Store.mbind (Store.tuple_of out_flds) k))) h
  = match (if negb include_original then remove (Store.items_of o) field
           else Ok (Store.items_of o)) with
    | Ok l =>
        k (S (List.length h))
          (h ++ [Store.ListObj
                   (extend_if l (Store.deref_opt h newfields));
                 Store.TupleObj
                   (extend_if l (Store.deref_opt h newfields))])
    | Raise e => (Raise e, h ++ [Store.ListObj (Store.items_of o)])
    end.
Proof.
  intros Ho Hnf.
  rewrite (Store.mbind_ok _ _ _ _ _ (Store.list_of_at h hd o Ho)).
  destruct include_original; cbn [negb].
  - rewrite (Store.mbind_ok _ _ (h ++ [Store.ListObj (Store.items_of o)])
               (h ++ [Store.ListObj (Store.items_of o)]) tt eq_refl).
    rewrite (Store.mbind_ok _ _ _ _ _
               (extend_if_any_fresh h (Store.items_of o) newfields Hnf)).
    now rewrite (Store.mbind_ok _ _ _ _ _ (Store.tuple_of_fresh h _)).
  - pose proof (Store.list_remove_fresh h (Store.items_of o) field) as Hr.
    destruct (remove (Store.items_of o) field) as [l|e].
    + rewrite (Store.mbind_ok _ _ _ _ _ Hr).
      rewrite (Store.mbind_ok _ _ _ _ _
                 (extend_if_any_fresh h l newfields Hnf)).
      now rewrite (Store.mbind_ok _ _ _ _ _ (Store.tuple_of_fresh h _)).
    + now rewrite (Store.mbind_raise _ _ _ _ _ Hr).
Qed.

(** Running a generator body up to the point where its header is read. *)
Ltac to_header Ho :=
  rewrite Store.mbind_lift; cbv beta iota; cbn [Store.next_row];
  rewrite Store.mbind_ret; cbn [fst snd];
  rewrite (Store.mbind_ok _ _ _ _ _ (Store.get_at _ _ _ Ho)).

Lemma itercapture_refines (E : ReEngine) (rows : list nat) (fin : outcome)
    (field pattern : pyobj) (newfields : option nat)
    (include_original : bool) (flags : Z) (fill : option nat)
    (h : Store.heap) :
  Forall (fun l => (l < List.length h)%nat) rows ->
  (forall l, newfields = Some l -> (l < List.length h)%nat) ->
  (forall l, fill = Some l -> (l < List.length h)%nat) ->
  let r := Store.itercapture E rows fin field pattern newfields
             include_original flags fill h in
  Store.extends h (Store.after r)
  /\ Store.seen r
     = itercapture E (Store.source h rows fin) field pattern
         (Store.deref_opt h newfields) include_original flags
         (Store.deref_opt h fill).
Proof.
  intros Hrows Hnf Hfill r. subst r. unfold Store.itercapture, itercapture.
  destruct (compile E pattern flags) as [p|e] eqn:Hc; cbn [bind run].
  2:{ eapply start_raise; [|apply Store.extends_refl].
      rewrite Store.mbind_lift. reflexivity. }
  destruct rows as [|hd rest].
  { rewrite next_source_nil.
    destruct fin as [|e]; cbn [bind run];
      (eapply start_raise; [|apply Store.extends_refl]);
      rewrite Store.mbind_lift; reflexivity. }
  inversion Hrows as [|? ? Hhd Hrest]; subst.
  destruct (Store.nth_valid h hd Hhd) as [o Ho].
  destruct (Store.deref_items h hd o Ho) as [_ Hel].
  rewrite source_cons. cbn [next bind]. rewrite Hel.
  set (resolved :=
         if py_in field (Store.items_of o)
         then index (Store.items_of o) field
         else match field with
              | OVal (VInt i) =>
                  if i <? len (Store.items_of o) then Ok i
                  else Raise field_invalid
              | _ => Raise field_invalid
              end).
  destruct resolved as [i|e] eqn:Hres; cbn [bind run].
  2:{ eapply start_raise; [|apply Store.extends_refl].
      to_header Ho. rewrite Store.mbind_lift. fold resolved.
      now rewrite Hres. }
  pose proof (header_in_store h hd o include_original field newfields) as Hh.
  destruct (if negb include_original then remove (Store.items_of o) field
            else Ok (Store.items_of o)) as [l|e] eqn:Hrm; cbn [bind run].
  2:{ eapply start_raise; [|apply Store.extends_app].
      to_header Ho. rewrite Store.mbind_lift. fold resolved. rewrite Hres.
      rewrite (Hh _ _ Ho Hnf). reflexivity. }
  set (out := extend_if l (Store.deref_opt h newfields)).
  set (h1 := h ++ [Store.ListObj out; Store.TupleObj out]).
  assert (Hext1 : Store.extends h h1) by apply Store.extends_app.
  destruct (Store.loop_refines h
              (Store.capture_row E p pattern i include_original fill)
              _ fin
              (capture_row_refines E h p pattern i include_original fill
                 Hfill)
              rest Hrest h1 Hext1) as [Hext2 Hseen].
  rewrite Store.ploop_for_yield in Hseen.
  replace (tuple out) with (Store.deref h1 (S (List.length h)))
    by (subst h1; apply Store.deref_tuple_fresh).
  eapply start_ok; [|exact Hext1| |exact Hext2|exact Hseen].
  - to_header Ho. rewrite Store.mbind_lift. fold resolved. rewrite Hres.
    rewrite (Hh _ _ Ho Hnf). reflexivity.
  - subst h1. rewrite length_app. simpl. lia.
Qed.

Lemma itersplit_refines (E : ReEngine) (rows : list nat) (fin : outcome)
    (field pattern : pyobj) (newfields : option nat)
    (include_original : bool) (maxsplit flags : Z) (h : Store.heap) :
  Forall (fun l => (l < List.length h)%nat) rows ->
  (forall l, newfields = Some l -> (l < List.length h)%nat) ->
  let r := Store.itersplit E rows fin field pattern newfields
             include_original maxsplit flags h in
  Store.extends h (Store.after r)
  /\ Store.seen r
     = itersplit E (Store.source h rows fin) field pattern
         (Store.deref_opt h newfields) include_original maxsplit flags.
Proof.
  intros Hrows Hnf r. subst r. unfold Store.itersplit, itersplit.
  destruct (compile E pattern flags) as [p|e] eqn:Hc; cbn [bind run].
  2:{ eapply start_raise; [|apply Store.extends_refl].
      rewrite Store.mbind_lift. reflexivity. }
  destruct rows as [|hd rest].
  { rewrite next_source_nil.
    destruct fin as [|e]; cbn [bind run];
      (eapply start_raise; [|apply Store.extends_refl]);
      rewrite Store.mbind_lift; reflexivity. }
  inversion Hrows as [|? ? Hhd Hrest]; subst.
  destruct (Store.nth_valid h hd Hhd) as [o Ho].
  destruct (Store.deref_items h hd o Ho) as [_ Hel].
  rewrite source_cons. cbn [next bind]. rewrite Hel.
  set (resolved :=
         if py_in field (Store.items_of o)
         then i <- index (Store.items_of o) field ;; Ok (i, field)
         else match field with
              | OVal (VInt i) =>
                  if i <? len (Store.items_of o)
                  then f <- getitem (Store.items_of o) i ;; Ok (i, OVal f)
                  else Raise field_invalid
              | _ => Raise field_invalid
              end).
  destruct resolved as [[i f]|e] eqn:Hres; cbn [bind run].
  2:{ eapply start_raise; [|apply Store.extends_refl].
      to_header Ho. rewrite Store.mbind_lift. fold resolved.
      now rewrite Hres. }
  pose proof (header_in_store h hd o include_original f newfields) as Hh.
  destruct (if negb include_original then remove (Store.items_of o) f
            else Ok (Store.items_of o)) as [l|e] eqn:Hrm; cbn [bind run].
  2:{ eapply start_raise; [|apply Store.extends_app].
      to_header Ho. rewrite Store.mbind_lift. fold resolved. rewrite Hres.
      cbn [fst snd]. rewrite (Hh _ _ Ho Hnf). reflexivity. }
  set (out := extend_if l (Store.deref_opt h newfields)).
  set (h1 := h ++ [Store.ListObj out; Store.TupleObj out]).
  assert (Hext1 : Store.extends h h1) by apply Store.extends_app.
  destruct (Store.loop_refines h
              (Store.split_row E p i include_original maxsplit) _ fin
              (split_row_refines E h p i include_original maxsplit)
              rest Hrest h1 Hext1) as [Hext2 Hseen].
  rewrite Store.ploop_for_yield in Hseen.
  replace (tuple out) with (Store.deref h1 (S (List.length h)))
    by (subst h1; apply Store.deref_tuple_fresh).
  eapply start_ok; [|exact Hext1| |exact Hext2|exact Hseen].
  - to_header Ho. rewrite Store.mbind_lift. fold resolved. rewrite Hres.
    cbn [fst snd]. rewrite (Hh _ _ Ho Hnf). reflexivity.
  - subst h1. rewrite length_app. simpl. lia.
Qed.

Lemma ploop_search (test : pyseq -> result bool) (wanted : bool)
    (it : traversal) :
  Store.ploop
    (fun r =>
       b <- test r ;;
       Ok (if Bool.eqb b wanted then Some (retuple r) else None)) it
  = for_yield_if (if wanted then test else not_test test) it.
Proof.
  induction it as [r k IH| |e]; simpl; [|now destruct wanted..].
  destruct wanted; simpl; unfold not_test;
    destruct (test r) as [[|]|]; simpl; now rewrite ?IH.
Qed.

Lemma itersearch_refines (E : ReEngine) (rows : list nat) (fin : outcome)
    (pattern field : pyobj) (flags : Z) (complement : bool)
    (h : Store.heap) :
  Forall (fun l => (l < List.length h)%nat) rows ->
  let r := Store.itersearch E rows fin pattern field flags complement h in
  Store.extends h (Store.after r)
  /\ Store.seen r
     = itersearch E (Store.source h rows fin) pattern field flags complement.
Proof.
  intros Hrows r. subst r. unfold Store.itersearch, itersearch.
  destruct (compile E pattern flags) as [p|e] eqn:Hc; cbn [bind run].
  2:{ eapply start_raise; [|apply Store.extends_refl].
      rewrite Store.mbind_lift. reflexivity. }
  destruct rows as [|hd rest].
  { rewrite next_source_nil.
    destruct fin as [|e]; cbn [bind run];
      (eapply start_raise; [|apply Store.extends_refl]);
      rewrite Store.mbind_lift; reflexivity. }
  inversion Hrows as [|? ? Hhd Hrest]; subst.
  destruct (Store.nth_valid h hd Hhd) as [o Ho].
  destruct (Store.deref_items h hd o Ho) as [_ Hel].
  rewrite source_cons. cbn [next bind run]. rewrite Hel.
  set (fields := map (fun f => VStr (str f)) (Store.items_of o)).
  set (h1 := h ++ [Store.ListObj fields; Store.TupleObj fields]).
  assert (Hext1 : Store.extends h h1) by apply Store.extends_app.
  replace (tuple fields) with (Store.deref h1 (S (List.length h)))
    by (subst h1; apply Store.deref_tuple_fresh).
  eapply start_ok; [|exact Hext1| | |].
  - to_header Ho. fold fields.
    rewrite (Store.mbind_ok _ _ h (h ++ [Store.ListObj fields])
               (List.length h) eq_refl).
    rewrite (Store.mbind_ok _ _ _ _ _ (Store.tuple_of_fresh h fields)).
    reflexivity.
  - subst h1. rewrite length_app. simpl. lia.
  - cbn beta. destruct (make_test E p fields field) as [test|e];
      [|apply Store.extends_refl].
    destruct complement; cbn [negb];
      apply (Store.loop_refines h _ _ fin (search_row_refines h test _)
               rest Hrest h1 Hext1).
  - cbn beta. destruct (make_test E p fields field) as [test|e];
      cbn [bind run]; [|reflexivity].
    destruct complement; cbn [negb run].
    + destruct (Store.loop_refines h _ _ fin
                  (search_row_refines h test false) rest Hrest h1 Hext1)
        as [_ ->].
      apply ploop_search.
    + destruct (Store.loop_refines h _ _ fin
                  (search_row_refines h test true) rest Hrest h1 Hext1)
        as [_ ->].
      apply ploop_search.
Qed.

(** ** Traversing a view twice *)

(** The traversal of a view as a function of what its source yields, with
    the sequences the view refers to read in the store [h]. *)
Definition on_sequences (E : ReEngine) (s : Store.stage) (h : Store.heap)
    (source : traversal) : traversal :=
  match s with
  | Store.CaptureStage field pattern newfields include_original flags fill =>
      itercapture E source field pattern (Store.deref_opt h newfields)
        include_original flags (Store.deref_opt h fill)
  | Store.SplitStage field pattern newfields include_original maxsplit
      flags =>
      itersplit E source field pattern (Store.deref_opt h newfields)
        include_original maxsplit flags
  | Store.SearchStage pattern field flags complement =>
      itersearch E source pattern field flags complement
  end.

Lemma traverse_refines (E : ReEngine) (s : Store.stage) (rows : list nat)
    (fin : outcome) (h : Store.heap) :
  Forall (fun l => (l < List.length h)%nat) (rows ++ Store.references s) ->
  Store.extends h (Store.after (Store.traverse E s rows fin h))
  /\ Store.seen (Store.traverse E s rows fin h)
     = on_sequences E s h (Store.source h rows fin).
Proof.
  intro Hwf. apply Forall_app in Hwf. destruct Hwf as [Hrows Hrefs].
  destruct s as [field pattern newfields io flags fill
                |field pattern newfields io maxsplit flags
                |pattern field flags complement];
    cbn [Store.traverse on_sequences Store.references] in *.
  - apply Forall_app in Hrefs. destruct Hrefs as [Hnf Hfill].
    apply itercapture_refines; [exact Hrows| |].
    + intros l ->. now inversion Hnf.
    + intros l ->. now inversion Hfill.
  - apply itersplit_refines; [exact Hrows|].
    intros l ->. now inversion Hrefs.
  - now apply itersearch_refines.
Qed.

Lemma deref_opt_extends (h h1 : Store.heap) (x : option nat) :
  Store.extends h h1 ->
  (forall l, x = Some l -> (l < List.length h)%nat) ->
  Store.deref_opt h1 x = Store.deref_opt h x.
Proof.
  intros He Hx. destruct x as [l|]; [|reflexivity]. simpl.
  now rewrite (Store.extends_deref h h1 l He (Hx l eq_refl)).
Qed.

Lemma on_sequences_extends (E : ReEngine) (s : Store.stage)
    (h h1 : Store.heap) (source : traversal) :
  Store.extends h h1 ->
  Forall (fun l => (l < List.length h)%nat) (Store.references s) ->
  on_sequences E s h1 source = on_sequences E s h source.
Proof.
  intros He Hrefs.
  destruct s as [field pattern newfields io flags fill
                |field pattern newfields io maxsplit flags
                |pattern field flags complement];
    cbn [on_sequences Store.references] in *; [| |reflexivity].
  - apply Forall_app in Hrefs. destruct Hrefs as [Hnf Hfill].
    rewrite (deref_opt_extends h h1 newfields He)
      by (intros l ->; now inversion Hnf).
    rewrite (deref_opt_extends h h1 fill He)
      by (intros l ->; now inversion Hfill).
    reflexivity.
  - rewrite (deref_opt_extends h h1 newfields He)
      by (intros l ->; now inversion Hrefs).
    reflexivity.
Qed.

(** Removing from a list that the store already holds does change the
    store: had [itercapture] called [remove] on the header of its source
    instead of on [list(flds)], the header would not be what it was. *)
Lemma remove_from_source_header :
  let h := [Store.ListObj [VStr "id"; VStr "variable"; VStr "value"]] in
  snd (Store.list_remove 0 (OVal (VStr "variable")) h)
  = [Store.ListObj [VStr "id"; VStr "value"]]
  /\ ~ Store.extends h (snd (Store.list_remove 0 (OVal (VStr "variable")) h)).
Proof.
  split; [reflexivity|]. intros [ext H]. simpl in H. discriminate H.
Qed.

(** C9.  A view of any of the three stages, traversed in a store that holds
    the rows its source yields and the sequences it refers to.  The
    traversal leaves every object of the store as it was (header, rows,
    [newfields] and [fill] included: what it changes are lists it made
    itself).  What it yields, and how it ends, is the stage's generator run on
    the rows as they are in the store at that time.  A second traversal,
    started in the store the first one left, over a source that yields rows
    with the same contents again, yields the same sequences in the same order
    and ends the same way. *)
Theorem traversals_share_nothing (E : ReEngine) (s : Store.stage)
    (rows : list nat) (fin : outcome) (h : Store.heap) :
  Forall (fun l => (l < List.length h)%nat) (rows ++ Store.references s) ->
  let first := Store.traverse E s rows fin h in
  let h1 := Store.after first in
  Store.extends h h1
  /\ Store.seen first = on_sequences E s h (Store.source h rows fin)
  /\ forall rows2 : list nat,
       Forall (fun l => (l < List.length h1)%nat) rows2 ->
       map (Store.deref h1) rows2 = map (Store.deref h) rows ->
       let second := Store.traverse E s rows2 fin h1 in
       Store.extends h1 (Store.after second)
       /\ Store.seen second = Store.seen first.
Proof.
  intros Hwf first h1. subst h1 first.
  destruct (traverse_refines E s rows fin h Hwf) as [Hext Hseen].
  split; [exact Hext|]. split; [exact Hseen|].
  intros rows2 Hrows2 Hsame second. subst second.
  apply Forall_app in Hwf. destruct Hwf as [Hrows Hrefs].
  assert (Hwf2 : Forall
                   (fun l => (l < List.length
                                    (Store.after
                                       (Store.traverse E s rows fin h)))%nat)
                   (rows2 ++ Store.references s)).
  { apply Forall_app. split; [exact Hrows2|].
    eapply Forall_impl; [|exact Hrefs]. intros l Hl. cbn beta in *.
    pose proof (Store.extends_length _ _ Hext). lia. }
  destruct (traverse_refines E s rows2 fin _ Hwf2) as [Hext2 Hseen2].
  split; [exact Hext2|].
  rewrite Hseen2, Hseen, (on_sequences_extends E s h _ _ Hext Hrefs).
  unfold Store.source. now rewrite Hsame.
Qed.

Lemma traversals_share_nothing_witness :
  let h := [Store.ListObj [VStr "id"; VStr "variable"; VStr "value"];
            Store.ListObj [VStr "1"; VStr "A1"; VStr "12"];
            Store.TupleObj [VStr "2"; VStr "B2"; VStr "15"];
            Store.ListObj [VStr "treat"; VStr "time"]] in
  let s := Store.CaptureStage (OVal (VStr "variable")) word_digits
             (Some 3%nat) false 0 None in
  let first := Store.traverse PyRe.engine s [0; 1; 2]%nat Done h in
  let h1 := Store.after first in
  Store.extends h h1
  /\ Store.seen first
     = on_sequences PyRe.engine s h (Store.source h [0; 1; 2]%nat Done)
  /\ forall rows2 : list nat,
       Forall (fun l => (l < List.length h1)%nat) rows2 ->
       map (Store.deref h1) rows2 = map (Store.deref h) [0; 1; 2]%nat ->
       let second := Store.traverse PyRe.engine s rows2 Done h1 in
       Store.extends h1 (Store.after second)
       /\ Store.seen second = Store.seen first.
Proof.
  apply (traversals_share_nothing PyRe.engine
           (Store.CaptureStage (OVal (VStr "variable")) word_digits
              (Some 3%nat) false 0 None)
           [0; 1; 2]%nat Done
           [Store.ListObj [VStr "id"; VStr "variable"; VStr "value"];
            Store.ListObj [VStr "1"; VStr "A1"; VStr "12"];
            Store.TupleObj [VStr "2"; VStr "B2"; VStr "15"];
            Store.ListObj [VStr "treat"; VStr "time"]]).
  repeat constructor.
Defined.
